(** * ciftify_meants: mask reconciliation and region aggregation

    A shallow embedding of [run_ciftify_meants]
    (src/ciftify/bin/ciftify_meants.py).  Its core is lines 190-237, the
    part of the program that works on the loaded arrays [data],
    [seed_data] and [mask_data]; lines 93-187, which name the output
    file and decide which loader is called on which file, are embedded
    in [resolve_outputcsv] and the module [Prog], with the loaders
    themselves taken as parameters.

    Numbers.  Array entries are exact rationals ([Q]); rounding of
    double-precision arithmetic is outside the model.  The one non-finite
    value the code can produce from finite inputs, NaN (mean of an empty
    slice), is the constructor [NaN] of [fval].  Arrays are float
    arrays: integer-typed arrays, whose products wrap around, are outside
    the model too.  Equality of array entries ([==], [!=], [in],
    [np.unique]) is equality of rationals ([Qeq_bool], [Qcompare]). *)

From Stdlib Require Import List Arith Bool Lia ZArith QArith Lqa Sorted.
From Stdlib Require Ascii String DecimalString.
Import ListNotations.

Local Open Scope nat_scope.

(** ** Arrays *)

(** A value of a float array computed by numpy. *)
Inductive fval : Type :=
| Fin (q : Q)
| NaN.

(** A two-dimensional array: [shape1] columns, one list per row. *)
Record ndarray : Type := mk_ndarray {
  shape1 : nat;
  rows : list (list Q)
}.

Definition shape0 (a : ndarray) : nat := length (rows a).

Definition wf_ndarray (a : ndarray) : bool :=
  forallb (fun r => length r =? shape1 a) (rows a).

(** [out_data] is one-dimensional in weighted mode (the result of
    [np.average]) and two-dimensional otherwise ([np.zeros((len(rois),
    data.shape[1]))]). *)
Inductive out_array : Type :=
| Out1d (v : list fval)
| Out2d (m : list (list fval)).

(** ** The numpy operations the function calls *)

Module Np.

Definition Qlt_bool (x y : Q) : bool := negb (Qle_bool y x).

(** [x > 0] and [x != 0] on a computed value; comparisons with NaN follow
    IEEE: [nan > 0] is false, [nan != 0] is true. *)
Definition gt0 (x : fval) : bool :=
  match x with Fin q => Qlt_bool 0 q | NaN => false end.

Definition ne0 (x : fval) : bool :=
  match x with Fin q => negb (Qeq_bool q 0) | NaN => true end.

Definition eq0 (x : fval) : bool :=
  match x with Fin q => Qeq_bool q 0 | NaN => false end.

Definition Qsum (l : list Q) : Q := fold_right Qplus 0%Q l.

Definition Qlen {A : Type} (l : list A) : Q := inject_Z (Z.of_nat (length l)).

(** [np.mean] of a one-dimensional slice; the mean of an empty slice is
    NaN (numpy only warns). *)
Definition mean (l : list Q) : fval :=
  match l with
  | [] => NaN
  | _ :: _ => Fin (Qsum l / Qlen l)
  end.

(** [np.var]: the mean of the squared deviations from the mean.
    [np.std] is its non-negative square root, so [np.std(l) > 0] holds
    exactly when [np.var(l) > 0] and [np.std(l) == 0] exactly when
    [np.var(l) == 0]; the model compares the variance. *)
Definition var (l : list Q) : fval :=
  match mean l with
  | NaN => NaN
  | Fin m => mean (map (fun x => ((x - m) * (x - m))%Q) l)
  end.

Definition std_gt0 (l : list Q) : bool := gt0 (var l).
Definition std_eq0 (l : list Q) : bool := eq0 (var l).

(** [np.where(c)[0]] for a one-dimensional boolean array: the indices of
    the true entries, ascending. *)
Definition where_1d (c : list bool) : list nat :=
  filter (fun i => nth i c false) (seq 0 (length c)).

Definition count_true (r : list bool) : nat := length (filter (fun b => b) r).

(** [np.where(c)[0]] for a two-dimensional boolean array: the row index of
    every true entry, in row-major order (a row with several true entries
    is listed several times). *)
Definition where_2d (c : list (list bool)) : list nat :=
  flat_map (fun i => repeat i (count_true (nth i c []))) (seq 0 (length c)).

(** [np.unique] on an index array: sorted, without repetitions. *)
Fixpoint insert_nat (x : nat) (l : list nat) : list nat :=
  match l with
  | [] => [x]
  | y :: l' =>
      match Nat.compare x y with
      | Lt => x :: l
      | Eq => l
      | Gt => y :: insert_nat x l'
      end
  end.

Definition unique_nat (l : list nat) : list nat := fold_right insert_nat [] l.

Definition mem_nat (x : nat) (l : list nat) : bool := existsb (Nat.eqb x) l.

(** [np.intersect1d(a, b)]: the sorted, unique values that are in both
    arrays. *)
Definition intersect1d (a b : list nat) : list nat :=
  filter (fun x => mem_nat x b) (unique_nat a).

(** [np.unique] on a float array: the sorted distinct values. *)
Fixpoint insert (x : Q) (l : list Q) : list Q :=
  match l with
  | [] => [x]
  | y :: l' =>
      match (x ?= y)%Q with
      | Lt => x :: l
      | Eq => l
      | Gt => y :: insert x l'
      end
  end.

Definition unique (l : list Q) : list Q := fold_right insert [] l.

(** [a.ravel()] / the flattening [np.unique] applies to its argument. *)
Definition ravel (rs : list (list Q)) : list Q := concat rs.

(** [x in arr] for a one-dimensional array: [(arr == x).any()]. *)
Definition contains (arr : list Q) (x : Q) : bool := existsb (Qeq_bool x) arr.

(** [np.multiply(a, b)] for [a] of shape (n, 1): the single column of [a]
    is broadcast across the columns of [b].  (The function reaches this
    call only with [seed_data.shape[1] == 1] and equal row counts.) *)
Definition multiply_col (a b : list (list Q)) : list (list Q) :=
  map (fun p => map (fun y => (hd 0 (fst p) * y)%Q) (snd p)) (combine a b).

(** [a[idx, :]]: the rows of [a] at the given indices, in that order.  The
    index arrays of this program come from [np.where] over arrays with as
    many rows as [a], so every lookup is in range. *)
Definition take_rows (a : list (list Q)) (idx : list nat) : list (list Q) :=
  map (fun i => nth i a []) idx.

Definition col (t : nat) (rs : list (list Q)) : list Q :=
  map (fun r => nth t r 0%Q) rs.

(** [np.mean(a, axis=0)] for [a] with [ncols] columns. *)
Definition mean_axis0 (ncols : nat) (rs : list (list Q)) : list fval :=
  map (fun t => mean (col t rs)) (seq 0 ncols).

Definition dot (v w : list Q) : Q :=
  Qsum (map (fun p => (fst p * snd p)%Q) (combine v w)).

Inductive average_error : Type :=
| WeightsLength      (* ValueError: length of weights not compatible *)
| WeightsSumToZero.  (* ZeroDivisionError: weights sum to zero *)

(** [np.average(a, axis=0, weights=w)] for two-dimensional [a] and
    one-dimensional [w]: [np.multiply(a, w).sum(0) / w.sum()], after the
    library's two checks. *)
Definition average_axis0 (ncols : nat) (rs : list (list Q)) (w : list Q)
  : average_error + list fval :=
  if negb (length w =? length rs) then inl WeightsLength
  else
    let scl := Qsum w in
    if Qeq_bool scl 0 then inl WeightsSumToZero
    else inr (map (fun t => Fin (dot (col t rs) w / scl)) (seq 0 ncols)).

(** [np.zeros((n, ncols))]. *)
Definition zeros (n ncols : nat) : list (list fval) :=
  repeat (repeat (Fin 0) ncols) n.

(** [out[i, :] = row] for an in-range [i]. *)
Fixpoint set_row (i : nat) (row : list fval) (out : list (list fval))
  : list (list fval) :=
  match out, i with
  | [], _ => []
  | _ :: out', O => row :: out'
  | r :: out', S i' => r :: set_row i' row out'
  end.

Definition enumerate {A : Type} (l : list A) : list (nat * A) :=
  combine (seq 0 (length l)) l.

End Np.

(** ** Effects: what the run writes and how it ends *)

Module Py.

(** The [sys.exit] calls of lines 190-237, by line. *)
Inductive exit_msg : Type :=
| Exit_func_seed_voxels    (* line 192 *)
| Exit_mask_seed_voxels    (* line 208 *)
| Exit_roi_outside_mask    (* line 212 *)
| Exit_roi_not_in_labels.  (* line 221 *)

Inductive failure : Type :=
| SystemExit (m : exit_msg)
| AttributeError      (* logger.WARNING, line 195 *)
| ValueError          (* np.average, weights of the wrong length *)
| ZeroDivisionError   (* np.average, weights sum to zero *)
| UnboundLocalError.  (* rois read before assignment, line 237 *)

Inductive event : Type :=
| SaveCsv (out_data : out_array)   (* np.savetxt(outputcsv, out_data) *)
| SaveLabels (rois : list Q).      (* np.savetxt(outputlabels, rois) *)

(** A computation writes files in order and either fails or returns. *)
Definition M (A : Type) : Type := list event * (failure + A).

Definition ret {A : Type} (a : A) : M A := ([], inr a).

Definition bind {A B : Type} (m : M A) (f : A -> M B) : M B :=
  match m with
  | (w, inl e) => (w, inl e)
  | (w, inr a) => let (w', r) := f a in (w ++ w', r)
  end.

Definition raise {A : Type} (e : failure) : M A := ([], inl e).

Definition sys_exit {A : Type} (m : exit_msg) : M A := raise (SystemExit m).

Definition emit (ev : event) : M unit := ([ev], inr tt).

Definition trace {A : Type} (m : M A) : list event := fst m.
Definition outcome {A : Type} (m : M A) : failure + A := snd m.

End Py.

Notation "x <- c1 ;; c2" := (Py.bind c1 (fun x => c2))
  (at level 61, c1 at next level, right associativity).
Notation "c1 ;; c2" := (Py.bind c1 (fun _ => c2))
  (at level 61, right associativity).

(** The error names of the specification, and the failure each stands
    for in the code. *)
Inductive spec_error : Type :=
| ShapeMismatch
| UnknownRegionLabel
| RegionFullyMasked
| InvalidWeights.

Definition classify (e : Py.failure) : option spec_error :=
  match e with
  | Py.SystemExit Py.Exit_func_seed_voxels => Some ShapeMismatch
  | Py.SystemExit Py.Exit_mask_seed_voxels => Some ShapeMismatch
  | Py.SystemExit Py.Exit_roi_outside_mask => Some RegionFullyMasked
  | Py.SystemExit Py.Exit_roi_not_in_labels => Some UnknownRegionLabel
  | Py.ZeroDivisionError => Some InvalidWeights
  | Py.ValueError => None
  | Py.AttributeError => None
  | Py.UnboundLocalError => None
  end.

(** ** The function *)

(** The arguments of the run after loading: [mask] is [Some mask_data]
    when [--mask] was given, [roi_label] is [Some (float(roi_label))] when
    [--roi-label] was given, [outputlabels] tells whether [--outputlabels]
    was given. *)
Record args : Type := mk_args {
  data : ndarray;
  seed_data : ndarray;
  mask : option ndarray;
  roi_label : option Q;
  weighted : bool;
  outputlabels : bool
}.

(** Lines 191-192. *)
Definition check_func_seed (data seed_data : ndarray) : Py.M unit :=
  if negb (shape0 data =? shape0 seed_data)
  then Py.sys_exit Py.Exit_func_seed_voxels
  else Py.ret tt.

(** Lines 194-195.  [logger] is a [logging.Logger]; it has a method
    [warning] but no attribute [WARNING] (that name is a constant of the
    [logging] module), so evaluating [logger.WARNING] raises
    AttributeError. *)
Definition check_seed_columns (seed_data : ndarray) : Py.M unit :=
  if negb (shape1 seed_data =? 1)
  then Py.raise Py.AttributeError
  else Py.ret tt.

(** Lines 198-202. *)
Definition std_nonzero (data : ndarray) : list nat :=
  Np.where_1d (map Np.std_gt0 (rows data)).

Definition m_nonzero (data : ndarray) : list nat :=
  Np.where_1d (map (fun r => Np.ne0 (Np.mean r)) (rows data)).

Definition implicit_mask_indices (data : ndarray) : list nat :=
  Np.intersect1d (std_nonzero data) (m_nonzero data).

(** Lines 204-212. *)
Definition mask_idx (mask_data : ndarray) : list nat :=
  Np.where_2d (map (map (Np.Qlt_bool 0)) (rows mask_data)).

Definition n_seeds (seed_data : ndarray) : nat :=
  length (Np.unique (Np.ravel (rows seed_data))).

Definition n_masked_seeds (seed_data mask_data : ndarray) : nat :=
  length (Np.unique (Np.ravel (Np.multiply_col (rows seed_data) (rows mask_data)))).

Definition reconcile_mask (seed_data : ndarray) (mask : option ndarray)
    (mask_indices : list nat) : Py.M (list nat) :=
  match mask with
  | Some mask_data =>
      if negb (shape0 seed_data =? shape0 mask_data)
      then Py.sys_exit Py.Exit_mask_seed_voxels
      else
        let mask_indices := Np.intersect1d mask_indices (mask_idx mask_data) in
        if negb (n_masked_seeds seed_data mask_data =? n_seeds seed_data)
        then Py.sys_exit Py.Exit_roi_outside_mask
        else Py.ret mask_indices
  | None => Py.ret mask_indices
  end.

(** Lines 215-216. *)
Definition weighted_average (data seed_data : ndarray) (mask_indices : list nat)
  : Py.M out_array :=
  match Np.average_axis0 (shape1 data)
          (Np.take_rows (rows data) mask_indices)
          (Np.ravel (Np.take_rows (rows seed_data) mask_indices)) with
  | inl Np.WeightsLength => Py.raise Py.ValueError
  | inl Np.WeightsSumToZero => Py.raise Py.ZeroDivisionError
  | inr avg => Py.ret (Out1d avg)
  end.

(** Lines 219-225. *)
Definition seed_labels (seed_data : ndarray) : list Q :=
  tl (Np.unique (Np.ravel (rows seed_data))).   (* np.unique(seed_data)[1:] *)

Definition select_rois (seed_data : ndarray) (roi_label : option Q)
  : Py.M (list Q) :=
  match roi_label with
  | Some l =>
      if negb (Np.contains (seed_labels seed_data) l)
      then Py.sys_exit Py.Exit_roi_not_in_labels
      else Py.ret [l]
  | None => Py.ret (seed_labels seed_data)
  end.

(** Lines 230-232, the body of the loop for one [roi]. *)
Definition roi_idx (seed_data : ndarray) (roi : Q) : list nat :=
  Np.where_2d (map (map (fun x => Qeq_bool x roi)) (rows seed_data)).

Definition roi_row (data seed_data : ndarray) (mask_indices : list nat) (roi : Q)
  : list fval :=
  let idx := roi_idx seed_data roi in
  let idxx := Np.intersect1d mask_indices idx in
  Np.mean_axis0 (shape1 data) (Np.take_rows (rows data) idxx).

(** Lines 226-232. *)
Definition region_means (data seed_data : ndarray) (mask_indices : list nat)
    (rois : list Q) : list (list fval) :=
  fold_left
    (fun out_data ir =>
       Np.set_row (fst ir) (roi_row data seed_data mask_indices (snd ir)) out_data)
    (Np.enumerate rois)
    (Np.zeros (length rois) (shape1 data)).

(** Lines 214-232: [out_data], and [rois] when it has been assigned. *)
Definition aggregate (a : args) (mask_indices : list nat)
  : Py.M (out_array * option (list Q)) :=
  if weighted a then
    out_data <- weighted_average (data a) (seed_data a) mask_indices ;;
    Py.ret (out_data, None)
  else
    rois <- select_rois (seed_data a) (roi_label a) ;;
    Py.ret (Out2d (region_means (data a) (seed_data a) mask_indices rois),
            Some rois).

(** Line 237. *)
Definition write_labels (outputlabels : bool) (rois : option (list Q))
  : Py.M unit :=
  if outputlabels then
    match rois with
    | Some r => Py.emit (Py.SaveLabels r)
    | None => Py.raise Py.UnboundLocalError
    end
  else Py.ret tt.

(** Lines 190-212: the reconciled [mask_indices]. *)
Definition mask_indices (a : args) : Py.M (list nat) :=
  check_func_seed (data a) (seed_data a) ;;
  check_seed_columns (seed_data a) ;;
  reconcile_mask (seed_data a) (mask a) (implicit_mask_indices (data a)).

(** Lines 190-237. *)
Definition run_ciftify_meants (a : args) : Py.M unit :=
  mi <- mask_indices a ;;
  r <- aggregate a mi ;;
  Py.emit (Py.SaveCsv (fst r)) ;;
  write_labels (outputlabels a) (snd r).

(** ** The specification's words, for comparison *)

Module Spec.

Definition row_of (a : ndarray) (i : nat) : list Q := nth i (rows a) [].

(** Sample [i] passes the std/mean filter: std > 0 and mean != 0. *)
Definition non_degenerate (data : ndarray) (i : nat) : bool :=
  Np.std_gt0 (row_of data i) && Np.ne0 (Np.mean (row_of data i)).

(** Sample [i] is inside the mask: its mask value is > 0. *)
Definition in_mask (mask_data : ndarray) (i : nat) : bool :=
  existsb (Np.Qlt_bool 0) (row_of mask_data i).

(** Sample [i] belongs to the reconciled valid-sample set. *)
Definition valid_sample (data : ndarray) (mask : option ndarray) (i : nat)
  : bool :=
  non_degenerate data i &&
  match mask with
  | Some mask_data => in_mask mask_data i
  | None => true
  end.

Definition valid_sample_set (data : ndarray) (mask : option ndarray)
  : list nat :=
  filter (valid_sample data mask) (seq 0 (shape0 data)).

(** Sample [i] carries label [roi]. *)
Definition has_label (seed_data : ndarray) (roi : Q) (i : nat) : bool :=
  existsb (fun x => Qeq_bool x roi) (row_of seed_data i).

(** The intersection of (samples labelled [roi]) and (reconciled
    valid-sample set). *)
Definition region_samples (data seed_data : ndarray) (mask : option ndarray)
    (roi : Q) : list nat :=
  filter (fun i => valid_sample data mask i && has_label seed_data roi i)
         (seq 0 (shape0 data)).

Definition value_at (data : ndarray) (t i : nat) : Q := nth t (row_of data i) 0%Q.

(** The arithmetic mean of the functional matrix at timepoint [t] over
    the samples [s]. *)
Definition mean_over (data : ndarray) (s : list nat) (t : nat) : fval :=
  Np.mean (map (value_at data t) s).

Definition weight_at (seed_data : ndarray) (i : nat) : Q :=
  hd 0%Q (row_of seed_data i).

(** sum(value_i * weight_i) / sum(weight_i) over the samples [s]. *)
Definition weighted_mean_over (data seed_data : ndarray) (s : list nat)
    (t : nat) : Q :=
  (Np.Qsum (map (fun i => value_at data t i * weight_at seed_data i) s)
   / Np.Qsum (map (weight_at seed_data) s))%Q.

(** The distinct nonzero values of an array, ascending. *)
Definition unique_nonzero (l : list Q) : list Q :=
  filter (fun x => negb (Qeq_bool x 0)) (Np.unique l).

(** Number of distinct nonzero labels of the seed map. *)
Definition n_labels (seed_data : ndarray) : nat :=
  length (unique_nonzero (Np.ravel (rows seed_data))).

(** Number of distinct nonzero values of seed map * mask. *)
Definition n_masked_labels (seed_data mask_data : ndarray) : nat :=
  length (unique_nonzero
            (Np.ravel (Np.multiply_col (rows seed_data) (rows mask_data)))).

End Spec.

(** ** Notions used in the statements *)

(** The input passes the checks of lines 190-212: equal sample counts, a
    one-column seed map and, with a mask, the count comparison of line
    211. *)
Definition passes_checks (a : args) : Prop :=
  shape0 (data a) = shape0 (seed_data a) /\
  shape1 (seed_data a) = 1 /\
  match mask a with
  | Some mask_data =>
      shape0 (seed_data a) = shape0 mask_data /\
      n_masked_seeds (seed_data a) mask_data = n_seeds (seed_data a)
  | None => True
  end.

(** The failure with which lines 190-212 stop the run, if any. *)
Definition precheck (a : args) : option Py.failure :=
  if negb (shape0 (data a) =? shape0 (seed_data a))
  then Some (Py.SystemExit Py.Exit_func_seed_voxels)
  else if negb (shape1 (seed_data a) =? 1)
  then Some Py.AttributeError
  else
    match mask a with
    | Some mask_data =>
        if negb (shape0 (seed_data a) =? shape0 mask_data)
        then Some (Py.SystemExit Py.Exit_mask_seed_voxels)
        else if negb (n_masked_seeds (seed_data a) mask_data
                      =? n_seeds (seed_data a))
        then Some (Py.SystemExit Py.Exit_roi_outside_mask)
        else None
    | None => None
    end.

(** The run ends with the specification's error [e]. *)
Definition fails_with (a : args) (e : spec_error) : Prop :=
  exists f, Py.outcome (run_ciftify_meants a) = inl f /\ classify f = Some e.

(** Row of the output for [roi], in the specification's words. *)
Definition spec_region_row (a : args) (roi : Q) : list fval :=
  map (Spec.mean_over (data a)
         (Spec.region_samples (data a) (seed_data a) (mask a) roi))
      (seq 0 (shape1 (data a))).

(** The weights the code hands to [np.average]. *)
Definition spec_weights (a : args) : list Q :=
  map (Spec.weight_at (seed_data a))
      (Spec.valid_sample_set (data a) (mask a)).

(** The single output row, in the specification's words. *)
Definition spec_weighted_row (a : args) : list fval :=
  map (fun t => Fin (Spec.weighted_mean_over (data a) (seed_data a)
                       (Spec.valid_sample_set (data a) (mask a)) t))
      (seq 0 (shape1 (data a))).

Definition nonzero (x : Q) : bool := negb (Qeq_bool x 0).

Definition remove_row {A : Type} (k : nat) (l : list A) : list A :=
  firstn k l ++ skipn (S k) l.

Definition remove_sample_nd (k : nat) (x : ndarray) : ndarray :=
  mk_ndarray (shape1 x) (remove_row k (rows x)).

(** The input without sample [k]: its row is dropped from the functional,
    seed and mask arrays. *)
Definition remove_sample (k : nat) (a : args) : args :=
  mk_args (remove_sample_nd k (data a))
          (remove_sample_nd k (seed_data a))
          (option_map (remove_sample_nd k) (mask a))
          (roi_label a) (weighted a) (outputlabels a).

(** Index of the old array that position [i] of the new one comes from. *)
Definition shift (k i : nat) : nat := if i <? k then i else S i.

(** Sample [k] is degenerate: std == 0 or mean == 0. *)
Definition degenerate (d : ndarray) (k : nat) : Prop :=
  Np.std_eq0 (Spec.row_of d k) = true \/
  Np.eq0 (Np.mean (Spec.row_of d k)) = true.

(** ** Concrete inputs *)

Definition of_Z (ncols : nat) (l : list (list Z)) : ndarray :=
  mk_ndarray ncols (map (map inject_Z) l).

(** Four samples, three timepoints, every sample with std > 0 and
    mean != 0 (the functional matrix of scenarios A-C). *)
Definition func_A : ndarray :=
  of_Z 3 [[1; 2; 3]; [3; 2; 4]; [5; 7; 6]; [7; 9; 14]]%Z.

(** Scenario A: seed labels 1,1,2,2, no mask, all labels. *)
Definition scenario_A : args :=
  mk_args func_A (of_Z 1 [[1]; [1]; [2]; [2]]%Z) None None false false.

(** As scenario A, with label 1 requested. *)
Definition scenario_A_label_1 : args :=
  mk_args func_A (of_Z 1 [[1]; [1]; [2]; [2]]%Z) None (Some (inject_Z 1))
          false false.

(** Scenario B: as A, with mask 1,1,0,0. *)
Definition scenario_B : args :=
  mk_args func_A (of_Z 1 [[1]; [1]; [2]; [2]]%Z)
          (Some (of_Z 1 [[1]; [1]; [0]; [0]]%Z)) None false false.

(** As scenario A, with mask 1,0,1,0: every region keeps a sample. *)
Definition partial_mask : args :=
  mk_args func_A (of_Z 1 [[1]; [1]; [2]; [2]]%Z)
          (Some (of_Z 1 [[1]; [0]; [1]; [0]]%Z)) None false false.

(** An atlas with background: labels 0,1,1,2, with a mask that keeps
    every region. *)
Definition atlas_masked : args :=
  mk_args func_A (of_Z 1 [[0]; [1]; [1]; [2]]%Z)
          (Some (of_Z 1 [[0]; [1]; [1]; [1]]%Z)) None false true.

(** Three samples, two timepoints; sample 1, the only one labelled 1, is
    constant (std == 0). *)
Definition flat_region : args :=
  mk_args (of_Z 2 [[1; 2]; [5; 5]; [3; 4]]%Z)
          (of_Z 1 [[0]; [1]; [2]]%Z) None None false false.

(** Four samples; sample 1 is constant and shares its label with
    sample 2. *)
Definition flat_sample : args :=
  mk_args (of_Z 2 [[1; 2]; [5; 5]; [3; 4]; [2; 6]]%Z)
          (of_Z 1 [[0]; [1]; [1]; [2]]%Z) None None false true.

(** Weighted mode with a negative weight: weights -1 and 3. *)
Definition negative_weight : args :=
  mk_args (of_Z 2 [[1; 2]; [3; 5]]%Z) (of_Z 1 [[-1]; [3]]%Z)
          None None true false.

(** Weighted mode with weights 1 and -1, which sum to zero. *)
Definition zero_sum_weights : args :=
  mk_args (of_Z 2 [[1; 2]; [3; 5]]%Z) (of_Z 1 [[1]; [-1]]%Z)
          None None true false.

(** Weighted mode together with [--outputlabels]. *)
Definition weighted_with_labels : args :=
  mk_args (of_Z 2 [[1; 2]; [3; 5]]%Z) (of_Z 1 [[1]; [3]]%Z)
          None None true true.

(** A seed map with two columns. *)
Definition two_column_seed : args :=
  mk_args func_A (of_Z 2 [[1; 1]; [1; 1]; [2; 2]; [2; 2]]%Z)
          None None false false.

(** ** Further inputs and variations of an input *)

(** The same run with [--roi-label l]. *)
Definition request_label (l : Q) (a : args) : args :=
  mk_args (data a) (seed_data a) (mask a) (Some l) (weighted a) (outputlabels a).

(** The same run with [--mask], the loaded mask being [mask_data]. *)
Definition with_mask (mask_data : ndarray) (a : args) : args :=
  mk_args (data a) (seed_data a) (Some mask_data) (roi_label a)
          (weighted a) (outputlabels a).

(** A one-column mask that is 1 at each of [n] samples. *)
Definition ones (n : nat) : ndarray := mk_ndarray 1 (repeat [1%Q] n).

(** Three samples with a single timepoint. *)
Definition single_timepoint : args :=
  mk_args (of_Z 1 [[3]; [5]; [4]]%Z) (of_Z 1 [[0]; [1]; [2]]%Z)
          None None false true.

(** No sample at all. *)
Definition no_samples : args :=
  mk_args (mk_ndarray 3 []) (mk_ndarray 1 []) (Some (mk_ndarray 1 []))
          None false true.

(** The per-region run for label [l] on the inputs of [a]. *)
Definition per_region_label (l : Q) (a : args) : args :=
  mk_args (data a) (seed_data a) (mask a) (Some l) false (outputlabels a).

(** Equality of computed values: of rationals as numbers, NaN with NaN. *)
Definition fval_eq (x y : fval) : Prop :=
  match x, y with
  | Fin p, Fin q => (p == q)%Q
  | NaN, NaN => True
  | _, _ => False
  end.

(** A 0/1 seed map over the functional matrix of scenario A, run in
    weighted mode. *)
Definition binary_seed_weighted : args :=
  mk_args func_A (of_Z 1 [[0]; [1]; [1]; [0]]%Z) None None true false.

(** ** Strings and paths *)

(** Python [str] values, as lists of characters. *)
Module Str.

Import Ascii String.

Definition str : Type := list ascii.

Definition lit (s : string) : str := list_ascii_of_string s.

Fixpoint eqb (x y : str) : bool :=
  match x, y with
  | [], [] => true
  | c :: x', d :: y' => Ascii.eqb c d && eqb x' y'
  | _, _ => false
  end.

(** [if s:] for an option value of docopt: [None] and the empty string
    are false. *)
Definition truthy (o : option str) : bool :=
  match o with
  | Some (_ :: _) => true
  | _ => false
  end.

Fixpoint starts_with (pre s : str) : bool :=
  match pre, s with
  | [], _ => true
  | c :: pre', d :: s' => Ascii.eqb c d && starts_with pre' s'
  | _ :: _, [] => false
  end.

(** [needle in hay]. *)
Fixpoint has_sub (needle hay : str) : bool :=
  starts_with needle hay ||
  match hay with
  | [] => false
  | _ :: hay' => has_sub needle hay'
  end.

(** [str(n)] for a non-negative integer. *)
Definition of_nat (n : nat) : str :=
  lit (DecimalString.NilEmpty.string_of_uint (Nat.to_uint n)).

Definition slash : ascii := "/"%char.
Definition underscore : str := lit "_".
Definition meants_csv : str := lit "_meants.csv".

End Str.

(** [os.path] on POSIX. *)
Module Path.

Definition is_sep (c : Ascii.ascii) : bool := Ascii.eqb c Str.slash.

Definition has_sep (p : Str.str) : bool := existsb is_sep p.

(** [p[:p.rfind('/') + 1]]: [p] up to and including its last slash. *)
Fixpoint head (p : Str.str) : Str.str :=
  match p with
  | [] => []
  | c :: p' => if has_sep p then c :: head p' else []
  end.

(** [p[p.rfind('/') + 1:]]. *)
Fixpoint tail (p : Str.str) : Str.str :=
  match p with
  | [] => []
  | c :: p' => if has_sep p then tail p' else p
  end.

(** [h.rstrip('/')]. *)
Fixpoint rstrip_sep (h : Str.str) : Str.str :=
  match h with
  | [] => []
  | c :: h' => if forallb is_sep h then [] else c :: rstrip_sep h'
  end.

(** [os.path.dirname]: the head, without its trailing slashes unless it
    consists of slashes only. *)
Definition dirname (p : Str.str) : Str.str :=
  let h := head p in
  match h with
  | [] => h
  | _ :: _ => if forallb is_sep h then h else rstrip_sep h
  end.

Definition basename (p : Str.str) : Str.str := tail p.

(** [path.endswith('/')]. *)
Definition ends_with_sep (p : Str.str) : bool :=
  match rev p with
  | c :: _ => is_sep c
  | [] => false
  end.

Definition starts_with_sep (p : Str.str) : bool :=
  match p with
  | c :: _ => is_sep c
  | [] => false
  end.

(** [os.path.join(a, b)]: [b] alone when it is absolute, else [a] and
    [b] with one slash between them unless [a] is empty or ends with
    one. *)
Definition join (a b : Str.str) : Str.str :=
  if starts_with_sep b then b
  else if match a with [] => true | _ :: _ => ends_with_sep a end
       then a ++ b
       else a ++ Str.slash :: b.

End Path.

(** Lines 93-95: the name of the output file. *)
Definition resolve_outputcsv (outputcsv : option Str.str)
    (func funcbase seedbase : Str.str) : Str.str :=
  match outputcsv with
  | Some (c :: p) => c :: p
  | _ =>
      let outputdir := Path.dirname func in
      Path.join outputdir
        (funcbase ++ Str.underscore ++ seedbase ++ Str.meants_csv)
  end.

(** ** From the command line to the loaded arrays (lines 63-188) *)

Module Prog.

Import Ascii String.

Definition lit := Str.lit.

(** A call of one of the loaders of [ciftify.io]. *)
Inductive loader_call : Type :=
| load_concat_cifti_surfaces (f : Str.str)
| load_cifti (f : Str.str)
| load_gii_data (f : Str.str)
| load_hemisphere_data (f : Str.str) (structure : Str.str)
| load_nifti (f : Str.str).

(** What the function takes from outside the file: [ciftify.io], [nib]
    and [float].  Each is taken to return; a loader that raises ends the
    run there, which the model leaves out. *)
Record externals : Type := mk_externals {
  determine_filetype : Str.str -> Str.str * Str.str;
  maps_to_volume : Str.str -> bool;   (* cifti_info(f)['maps_to_volume'] *)
  num_maps : Str.str -> nat;          (* nib.load(f).get_data().shape[4] *)
  float_of : Str.str -> option Q;     (* float(s); None is ValueError *)
  load : loader_call -> ndarray
}.

(** The docopt arguments the function reads. *)
Record cli : Type := mk_cli {
  arg_func : Str.str;
  arg_seed : Str.str;
  arg_mask : option Str.str;
  arg_roi_label : option Str.str;
  arg_outputcsv : option Str.str;
  arg_outputlabels : option Str.str;
  arg_weighted : bool;
  arg_hemi : option Str.str
}.

Definition cifti : Str.str := lit "cifti".
Definition gifti : Str.str := lit "gifti".
Definition nifti : Str.str := lit "nifti".
Definition wb_command : Str.str := lit "wb_command".
Definition CORTEX_LEFT : Str.str := lit "CORTEX_LEFT".
Definition CORTEX_RIGHT : Str.str := lit "CORTEX_RIGHT".
Definition hemi_L : Str.str := lit "L".
Definition hemi_R : Str.str := lit "R".
Definition dlabel_ext : Str.str := lit ".dlabel.nii".

(** The double quote character. *)
Definition dq : ascii := ascii_of_nat 34.

(** Messages of the [sys.exit] calls of lines 113-187. *)
Definition msg_cifti_func : Str.str :=
  lit "If <seed> is in cifti, func file needs to match.".
Definition msg_cifti_mask : Str.str :=
  lit "If <seed> is in cifti, mask file needs to match.".
Definition msg_gifti_mask : Str.str :=
  lit "If <seed> is in gifti, mask file needs to match.".
Definition msg_hemi : Str.str :=
  lit "ERROR: hemisphere for the gifti seed file needs to be specified with "
  ++ dq :: lit "L" ++ dq :: lit " or " ++ dq :: lit "R" ++ [dq].
Definition msg_gifti_func : Str.str :=
  lit "If <seed> is in gifti, <func> must be gifti or cifti".
Definition msg_nifti_func : Str.str :=
  lit "If <seed> is in nifti, func file needs to match.".
Definition msg_nifti_mask : Str.str :=
  lit "If <seed> is in nifti, <mask> file needs to match.".

(** An argument list handed to [ciftify.utils.run]. *)
Definition command : Type := list Str.str.

(** Lines 99-111: a dlabel seed is turned into one map of integer labels;
    the commands run, and the file that is the seed from then on. *)
Definition convert_dlabel (ext : externals) (tempdir seed : Str.str)
  : list command * Str.str :=
  if Str.has_sub dlabel_ext seed then
    let longseed := Path.join tempdir (lit "seedmap.dscalar.nii") in
    let shortseed := Path.join tempdir (lit "seedmapcombined.dscalar.nii") in
    let n := num_maps ext longseed in
    ([wb_command; lit "-cifti-all-labels-to-rois"; seed; lit "1"; longseed]
       :: [wb_command; lit "-cifti-math " ++ dq :: lit "((x*1)+(y*2))" ++ [dq];
           shortseed;
           lit "-var"; lit "x"; longseed; lit "-select"; lit "1"; Str.of_nat 1;
           lit "-var"; lit "y"; longseed; lit "-select"; lit "1"; Str.of_nat 2]
       :: map (fun roi =>
                 [wb_command;
                  lit "-cifti-math " ++ dq :: lit "((x)+(y*" ++ Str.of_nat roi
                    ++ lit "))" ++ [dq];
                  shortseed;
                  lit "-var"; lit "x"; shortseed;
                  lit "-var"; lit "y"; longseed; lit "-select"; lit "1";
                  Str.of_nat roi])
              (seq 3 (n - 2)),          (* range(3, num_maps + 1) *)
     shortseed)
  else ([], seed).

(** The local variables [seed_data], [data] and [mask_data] after line
    187: the loader call each is bound to, [None] when unbound. *)
Record bindings : Type := mk_bindings {
  seed_data_of : option loader_call;
  data_of : option loader_call;
  mask_data_of : option loader_call
}.

Definition cifti_separate (file volume : Str.str) : command :=
  [wb_command; lit "-cifti-separate"; file; lit "COLUMN";
   lit "-volume-all"; volume].

Definition is_type (t : option Str.str) (ty : Str.str) : bool :=
  match t with
  | Some t' => Str.eqb t' ty      (* mask_type == ty; mask_type None is not *)
  | None => false
  end.

Definition path_of (o : option Str.str) : Str.str :=
  match o with Some p => p | None => [] end.

(** Lines 149-154, 157-160: the structure for [--hemi]. *)
Definition hemi_structure (hemi : option Str.str) : option Str.str :=
  match hemi with
  | Some h =>
      if Str.eqb h hemi_L then Some CORTEX_LEFT
      else if Str.eqb h hemi_R then Some CORTEX_RIGHT
      else None
  | None => None
  end.

(** Lines 113-187: the commands run, and either the message of a
    [sys.exit] or the bindings made. *)
Definition load_inputs (ext : externals) (tempdir func seed : Str.str)
    (mask hemi : option Str.str) (func_type seed_type : Str.str)
    (mask_type : option Str.str)
  : list command * (Str.str + bindings) :=
  if Str.eqb seed_type cifti then
    if negb (maps_to_volume ext seed && maps_to_volume ext func) then
      if Str.eqb func_type cifti then
        if Str.truthy mask then
          if is_type mask_type cifti then
            ([], inr (mk_bindings (Some (load_concat_cifti_surfaces seed))
                        (Some (load_concat_cifti_surfaces func))
                        (Some (load_concat_cifti_surfaces (path_of mask)))))
          else ([], inl msg_cifti_func)                         (* line 126 *)
        else ([], inr (mk_bindings (Some (load_concat_cifti_surfaces seed))
                         (Some (load_concat_cifti_surfaces func)) None))
      else ([], inl msg_cifti_func)                             (* line 121 *)
    else
      if Str.eqb func_type cifti then
        if Str.truthy mask then
          if is_type mask_type cifti then
            ([], inr (mk_bindings (Some (load_cifti seed))
                        (Some (load_cifti func))
                        (Some (load_cifti (path_of mask)))))
          else ([], inl msg_cifti_mask)                         (* line 137 *)
        else ([], inr (mk_bindings (Some (load_cifti seed))
                         (Some (load_cifti func)) None))
      else ([], inl msg_cifti_func)                             (* line 132 *)
  else if Str.eqb seed_type gifti then
    if Str.eqb func_type gifti then
      if Str.truthy mask then
        if is_type mask_type gifti then
          ([], inr (mk_bindings (Some (load_gii_data seed))
                      (Some (load_gii_data func))
                      (Some (load_gii_data (path_of mask)))))
        else ([], inl msg_gifti_mask)                           (* line 147 *)
      else ([], inr (mk_bindings (Some (load_gii_data seed))
                       (Some (load_gii_data func)) None))
    else if Str.eqb func_type cifti then
      match hemi_structure hemi with
      | Some structure =>
          ([], inr (mk_bindings (Some (load_gii_data seed))
                      (Some (load_hemisphere_data func structure))
                      (if is_type mask_type cifti                (* line 156 *)
                       then Some (load_hemisphere_data (path_of mask) structure)
                       else None)))
      | None => ([], inl msg_hemi)                              (* line 154 *)
      end
    else ([], inl msg_gifti_func)                               (* line 162 *)
  else if Str.eqb seed_type nifti then
    let subcort_func := Path.join tempdir (lit "subcort_func.nii.gz") in
    let subcort_mask := Path.join tempdir (lit "subcort_mask.nii.gz") in
    let func_part : list command * option loader_call :=
      if Str.eqb func_type nifti then ([], Some (load_nifti func))
      else if Str.eqb func_type cifti
      then ([cifti_separate func subcort_func], Some (load_nifti subcort_func))
      else ([], None) in
    match func_part with
    | (runs, Some data) =>
        if Str.truthy mask then
          if is_type mask_type nifti then
            (runs, inr (mk_bindings (Some (load_nifti seed)) (Some data)
                          (Some (load_nifti (path_of mask)))))
          else if is_type mask_type cifti then
            (runs ++ [cifti_separate (path_of mask) subcort_mask],
             inr (mk_bindings (Some (load_nifti seed)) (Some data)
                    (Some (load_nifti subcort_mask))))
          else (runs, inl msg_nifti_mask)                       (* line 187 *)
        else (runs, inr (mk_bindings (Some (load_nifti seed)) (Some data) None))
    | (runs, None) => (runs, inl msg_nifti_func)                (* line 176 *)
    end
  else ([], inr (mk_bindings None None None)).

(** Lines 190-237 on the bindings of lines 113-187.  Reading an unbound
    [data] (line 191) or [mask_data] (line 207) raises UnboundLocalError;
    [float(roi_label)] (line 220) raises ValueError when the label is not
    a number. *)
Definition run_loaded (ext : externals) (c : cli) (b : bindings) : Py.M unit :=
  match data_of b, seed_data_of b with
  | Some d, Some s =>
      let data := load ext d in
      let seed_data := load ext s in
      let outputlabels := Str.truthy (arg_outputlabels c) in
      let core (mask : option ndarray) : Py.M unit :=
        if arg_weighted c then
          run_ciftify_meants (mk_args data seed_data mask None true outputlabels)
        else if Str.truthy (arg_roi_label c) then
          match float_of ext (path_of (arg_roi_label c)) with
          | Some l =>
              run_ciftify_meants
                (mk_args data seed_data mask (Some l) false outputlabels)
          | None =>
              mask_indices (mk_args data seed_data mask None false outputlabels) ;;
              Py.raise Py.ValueError
          end
        else
          run_ciftify_meants (mk_args data seed_data mask None false outputlabels)
      in
      if Str.truthy (arg_mask c) then
        match mask_data_of b with
        | Some m => core (Some (load ext m))
        | None =>
            check_func_seed data seed_data ;;
            check_seed_columns seed_data ;;
            Py.raise Py.UnboundLocalError
        end
      else core None
  | _, _ => Py.raise Py.UnboundLocalError
  end.

(** Lines 63-237: the commands run, the name of the output file, and
    either the message of a [sys.exit] of lines 113-187 or the way lines
    190-237 end. *)
Definition run_program (ext : externals) (tempdir : Str.str) (c : cli)
  : list command * Str.str * (Str.str + Py.M unit) :=
  let func_type := fst (determine_filetype ext (arg_func c)) in
  let funcbase := snd (determine_filetype ext (arg_func c)) in
  let seed_type := fst (determine_filetype ext (arg_seed c)) in
  let seedbase := snd (determine_filetype ext (arg_seed c)) in
  let mask_type :=
    if Str.truthy (arg_mask c)
    then Some (fst (determine_filetype ext (path_of (arg_mask c))))
    else None in
  let outputcsv :=
    resolve_outputcsv (arg_outputcsv c) (arg_func c) funcbase seedbase in
  let converted := convert_dlabel ext tempdir (arg_seed c) in
  let loaded :=
    load_inputs ext tempdir (arg_func c) (snd converted) (arg_mask c)
                (arg_hemi c) func_type seed_type mask_type in
  (fst converted ++ fst loaded, outputcsv,
   match snd loaded with
   | inl msg => inl msg
   | inr b => inr (run_loaded ext c b)
   end).

(** The local variables the later lines read are all bound. *)
Definition complete (mask : option Str.str) (b : bindings) : bool :=
  match seed_data_of b, data_of b with
  | Some _, Some _ =>
      if Str.truthy mask
      then match mask_data_of b with Some _ => true | None => false end
      else true
  | _, _ => false
  end.

End Prog.

(** Concrete command lines and stand-ins for the loaders. *)
Module Demo.

Import Ascii String.

Definition lit := Str.lit.

(** File types by extension; every cifti file is surface-only; the
    gifti seed has two vertices, every other file two samples and two
    timepoints. *)
Definition ext : Prog.externals :=
  Prog.mk_externals
    (fun f =>
       if Str.has_sub (lit ".gii") f then (Prog.gifti, lit "shape")
       else if Str.has_sub (lit ".nii.gz") f then (Prog.nifti, lit "vol")
       else if Str.has_sub (lit ".nii") f then (Prog.cifti, lit "dense")
       else (lit "unknown", lit "file"))
    (fun _ => false)
    (fun _ => 3)
    (fun _ => None)
    (fun call =>
       match call with
       | Prog.load_gii_data _ => of_Z 1 [[0]; [1]]%Z
       | _ => of_Z 2 [[1; 2]; [3; 5]]%Z
       end).

Definition tempdir : Str.str := lit "/tmp/tmpdir".

(** A gifti seed, cifti functional data, a gifti mask and [--hemi L]. *)
Definition gifti_seed_gifti_mask : Prog.cli :=
  Prog.mk_cli (lit "/data/rest.dtseries.nii") (lit "/data/seed.L.shape.gii")
              (Some (lit "/data/mask.L.shape.gii")) None None None false
              (Some (lit "L")).

(** A seed file of a type that is none of cifti, gifti, nifti. *)
Definition text_seed : Prog.cli :=
  Prog.mk_cli (lit "/data/rest.dtseries.nii") (lit "/data/seed.txt")
              None None None None false None.

Definition func_path : Str.str := lit "/data/sub01/rest.nii.gz".
Definition funcbase : Str.str := lit "rest".
Definition seedbase : Str.str := lit "atlas".
Definition expected_csv : Str.str := lit "rest_atlas_meants.csv".
Definition expected_dir : Str.str := lit "/data/sub01".

End Demo.

(** ** The label map made from a dlabel seed (lines 99-111) *)

Module Dlabel.

(** Elementwise [f] on two maps of the same length. *)
Definition zip_with (f : Q -> Q -> Q) (x y : list Q) : list Q :=
  map (fun p => f (fst p) (snd p)) (combine x y).

Definition Qnat (k : nat) : Q := inject_Z (Z.of_nat k).

(** What the [-cifti-math] expressions of lines 104-110 compute, on the
    maps of [longseed] (one list of sample values per map, as
    [-cifti-all-labels-to-rois] wrote them): [shortseed] starts as
    ((x*1)+(y*2)) on maps 1 and 2, and for each [roi] of
    [range(3, num_maps + 1)] becomes ((x)+(y*roi)) on itself and map
    [roi].  [-select 1 k] is map number [k], counted from 1. *)
Definition select (longseed : list (list Q)) (k : nat) : list Q :=
  nth (k - 1) longseed [].

Definition combine_rois (longseed : list (list Q)) : list Q :=
  let num_maps := length longseed in
  fold_left
    (fun shortseed roi =>
       zip_with (fun x y => (x + y * Qnat roi)%Q) shortseed (select longseed roi))
    (seq 3 (num_maps - 2))
    (zip_with (fun x y => (x * 1 + y * 2)%Q) (select longseed 1) (select longseed 2)).

(** The value of sample [j] in map number [k]. *)
Definition in_roi (longseed : list (list Q)) (k j : nat) : Q :=
  nth j (select longseed k) 0%Q.

(** sum over the maps of (map number) * (value of sample [j] in the map). *)
Definition label_sum (longseed : list (list Q)) (m j : nat) : Q :=
  Np.Qsum (map (fun k => (Qnat k * in_roi longseed k j)%Q) (seq 1 m)).

(** Three maps over four samples: the regions of samples 0, 1-2 and 3. *)
Definition three_rois : list (list Q) :=
  map (map inject_Z) [[1; 0; 0; 0]; [0; 1; 1; 0]; [0; 0; 0; 1]]%Z.

End Dlabel.

(** The comparison of line 211 finds equal counts. *)
Definition coarse_check_passes (seed_data mask_data : ndarray) : bool :=
  n_masked_seeds seed_data mask_data =? n_seeds seed_data.

(** The run comes to line 211 with the mask [mask_data]. *)
Definition reaches_coarse_check (a : args) (mask_data : ndarray) : Prop :=
  mask a = Some mask_data /\
  shape0 (data a) = shape0 (seed_data a) /\
  shape1 (seed_data a) = 1 /\
  shape0 (seed_data a) = shape0 mask_data.

(** Whenever line 211 is reached, it decides the same with and without
    sample [k]. *)
Definition same_coarse_verdict (k : nat) (a : args) : Prop :=
  forall mask_data,
    reaches_coarse_check a mask_data ->
    coarse_check_passes (remove_sample_nd k (seed_data a))
                        (remove_sample_nd k mask_data)
    = coarse_check_passes (seed_data a) mask_data.

(** Whenever lines 219-225 are reached, they return the same label list
    (or reject the requested label alike) with and without sample [k]. *)
Definition same_label_list (k : nat) (a : args) : Prop :=
  weighted a = false ->
  passes_checks a ->
  select_rois (remove_sample_nd k (seed_data a)) (roi_label a)
  = select_rois (seed_data a) (roi_label a).

(** Weighted mode, continuous weights 2, 7, 3; sample 1 is constant and
    the only one with its weight. *)
Definition flat_sample_weighted : args :=
  mk_args (of_Z 2 [[1; 2]; [5; 5]; [3; 4]]%Z) (of_Z 1 [[2]; [7]; [3]]%Z)
          None None true false.

(** ** Laws of the effect monad *)

Lemma bind_pure {A B : Type} (x : A) (f : A -> Py.M B) :
  Py.bind ([], inr x) f = f x.
Proof. unfold Py.bind. destruct (f x); reflexivity. Qed.

Lemma bind_return {A B : Type} (w : list Py.event) (x : A) (f : A -> Py.M B) :
  Py.bind (w, inr x) f = (w ++ fst (f x), snd (f x)).
Proof. unfold Py.bind. destruct (f x); reflexivity. Qed.

Lemma bind_fail {A B : Type} (w : list Py.event) (e : Py.failure)
    (f : A -> Py.M B) :
  Py.bind (w, inl e) f = (w, inl e).
Proof. reflexivity. Qed.

Lemma bind_assoc {A B C : Type} (m : Py.M A) (f : A -> Py.M B)
    (g : B -> Py.M C) :
  Py.bind (Py.bind m f) g = Py.bind m (fun x => Py.bind (f x) g).
Proof.
  destruct m as [w [e|x]]; [reflexivity|]. simpl.
  destruct (f x) as [w1 [e|y]]; simpl; [reflexivity|].
  destruct (g y) as [w2 r]. now rewrite app_assoc.
Qed.

(** ** Index arrays: sorted lists of sample indices *)

Section IndexArrays.

Local Abbreviation ssorted := (StronglySorted lt).

Lemma ssorted_head_lt (x y : nat) (l : list nat) :
  ssorted (x :: l) -> In y l -> x < y.
Proof.
  intros H Hy. apply StronglySorted_inv in H as [_ Hall].
  rewrite Forall_forall in Hall. now apply Hall.
Qed.

(** A strictly ascending list is determined by its elements. *)
Lemma ssorted_ext (l1 : list nat) :
  forall l2, ssorted l1 -> ssorted l2 ->
             (forall x, In x l1 <-> In x l2) -> l1 = l2.
Proof.
  induction l1 as [|a l1 IH]; intros [|b l2] S1 S2 E.
  - reflexivity.
  - exfalso. apply (proj2 (E b)). now left.
  - exfalso. apply (proj1 (E a)). now left.
  - assert (a = b) as ->.
    { destruct (proj1 (E a) (or_introl eq_refl)) as [Hb|Hb]; [now symmetry|].
      destruct (proj2 (E b) (or_introl eq_refl)) as [Ha|Ha]; [assumption|].
      pose proof (ssorted_head_lt _ _ _ S2 Hb).
      pose proof (ssorted_head_lt _ _ _ S1 Ha). lia. }
    f_equal. apply IH.
    + now apply StronglySorted_inv in S1.
    + now apply StronglySorted_inv in S2.
    + intro x; split; intro Hx.
      * destruct (proj1 (E x) (or_intror Hx)) as [<-|H]; [|assumption].
        pose proof (ssorted_head_lt _ _ _ S1 Hx). lia.
      * destruct (proj2 (E x) (or_intror Hx)) as [<-|H]; [|assumption].
        pose proof (ssorted_head_lt _ _ _ S2 Hx). lia.
Qed.

Lemma ssorted_seq (n : nat) : forall s, ssorted (seq s n).
Proof.
  induction n as [|n IH]; intro s; simpl; constructor.
  - apply IH.
  - apply Forall_forall. intros x Hx. apply in_seq in Hx. lia.
Qed.

Lemma ssorted_filter (f : nat -> bool) (l : list nat) :
  ssorted l -> ssorted (filter f l).
Proof.
  induction 1 as [|a l S IH Hall]; simpl; [constructor|].
  destruct (f a); [|assumption].
  constructor; [assumption|].
  rewrite Forall_forall in *. intros x Hx.
  apply filter_In in Hx. now apply Hall.
Qed.

Lemma insert_nat_In (x y : nat) (l : list nat) :
  In y (Np.insert_nat x l) <-> y = x \/ In y l.
Proof.
  induction l as [|a l IH]; simpl.
  - intuition.
  - destruct (Nat.compare_spec x a) as [->|Hlt|Hgt]; simpl.
    + intuition.
    + intuition.
    + rewrite IH. intuition.
Qed.

Lemma insert_nat_sorted (x : nat) (l : list nat) :
  ssorted l -> ssorted (Np.insert_nat x l).
Proof.
  induction 1 as [|a l S IH Hall]; simpl.
  - repeat constructor.
  - destruct (Nat.compare_spec x a) as [->|Hlt|Hgt].
    + now constructor.
    + constructor; [now constructor|].
      constructor; [assumption|].
      rewrite Forall_forall in *. intros y Hy. specialize (Hall y Hy). lia.
    + constructor; [assumption|].
      rewrite Forall_forall in *. intros y Hy.
      apply insert_nat_In in Hy as [->|Hy]; [assumption|now apply Hall].
Qed.

Lemma unique_nat_In (y : nat) (l : list nat) :
  In y (Np.unique_nat l) <-> In y l.
Proof.
  induction l as [|a l IH]; simpl; [tauto|].
  rewrite insert_nat_In, IH. intuition.
Qed.

Lemma unique_nat_sorted (l : list nat) : ssorted (Np.unique_nat l).
Proof.
  induction l as [|a l IH]; simpl; [constructor|].
  now apply insert_nat_sorted.
Qed.

Lemma mem_nat_In (x : nat) (l : list nat) :
  Np.mem_nat x l = true <-> In x l.
Proof.
  unfold Np.mem_nat. rewrite existsb_exists. split.
  - intros [y [Hy E]]. apply Nat.eqb_eq in E. now subst.
  - intro H. exists x. split; [assumption|apply Nat.eqb_refl].
Qed.

Lemma intersect1d_In (x : nat) (a b : list nat) :
  In x (Np.intersect1d a b) <-> In x a /\ In x b.
Proof.
  unfold Np.intersect1d. now rewrite filter_In, unique_nat_In, mem_nat_In.
Qed.

Lemma intersect1d_sorted (a b : list nat) : ssorted (Np.intersect1d a b).
Proof. apply ssorted_filter, unique_nat_sorted. Qed.

(** The intersection of two index arrays that list, below [n], the
    indices satisfying [f] and [g], is the ascending list of the indices
    below [n] that satisfy both. *)
Lemma intersect1d_filter (n : nat) (f g : nat -> bool) (a b : list nat) :
  (forall x, In x a <-> x < n /\ f x = true) ->
  (forall x, x < n -> (In x b <-> g x = true)) ->
  Np.intersect1d a b = filter (fun i => f i && g i) (seq 0 n).
Proof.
  intros Ha Hb. apply ssorted_ext.
  - apply intersect1d_sorted.
  - apply ssorted_filter, ssorted_seq.
  - intro x. rewrite intersect1d_In, filter_In, in_seq, andb_true_iff, Ha.
    split.
    + intros [[Hn Hf] Hx]. apply Hb in Hx; [|assumption].
      repeat split; try assumption; lia.
    + intros [[_ Hn] [Hf Hg]]. simpl in Hn.
      repeat split; try assumption. now apply Hb.
Qed.

Lemma where_1d_In (c : list bool) (x : nat) :
  In x (Np.where_1d c) <-> x < length c /\ nth x c false = true.
Proof.
  unfold Np.where_1d. rewrite filter_In, in_seq. intuition lia.
Qed.

Lemma where_1d_map {A : Type} (p : A -> bool) (l : list A) (d : A) :
  Np.where_1d (map p l) = filter (fun i => p (nth i l d)) (seq 0 (length l)).
Proof.
  unfold Np.where_1d. rewrite length_map. apply filter_ext_in.
  intros i Hi. apply in_seq in Hi.
  rewrite (nth_indep _ false (p d)) by (rewrite length_map; lia).
  apply map_nth.
Qed.

Lemma count_true_pos (r : list bool) :
  0 < Np.count_true r <-> existsb (fun b => b) r = true.
Proof.
  unfold Np.count_true. induction r as [|[|] r IH]; simpl.
  - split; [lia|discriminate].
  - split; [reflexivity|lia].
  - exact IH.
Qed.

Lemma where_2d_In (c : list (list bool)) (x : nat) :
  In x (Np.where_2d c) <->
  x < length c /\ existsb (fun b => b) (nth x c []) = true.
Proof.
  unfold Np.where_2d. rewrite in_flat_map. split.
  - intros [i [Hi Hx]]. apply repeat_spec in Hx as Hxi. subst x.
    apply in_seq in Hi. split; [lia|].
    apply count_true_pos. destruct (Np.count_true (nth i c [])); [inversion Hx|lia].
  - intros [Hlt Hex]. exists x. split; [apply in_seq; lia|].
    apply count_true_pos in Hex.
    destruct (Np.count_true (nth x c [])); [lia|now left].
Qed.

Lemma where_2d_map_In {A : Type} (p : A -> bool) (rs : list (list A)) (x : nat) :
  In x (Np.where_2d (map (map p) rs)) <->
  x < length rs /\ existsb p (nth x rs []) = true.
Proof.
  rewrite where_2d_In, length_map.
  change (@nil bool) with (map p []). rewrite map_nth.
  assert (E : forall l, existsb (fun b => b) (map p l) = existsb p l).
  { induction l as [|a l IH]; simpl; [reflexivity|now rewrite IH]. }
  now rewrite E.
Qed.

End IndexArrays.

(** ** [np.unique] on values *)

Section UniqueValues.

Local Open Scope Q_scope.

Local Abbreviation qsorted := (StronglySorted Qlt).

Lemma insert_In (x y : Q) (l : list Q) :
  In y (Np.insert x l) -> y = x \/ In y l.
Proof.
  induction l as [|a l IH]; simpl.
  - intros [<-|[]]. now left.
  - destruct (x ?= a); simpl; intuition (subst; auto).
Qed.

Lemma insert_sorted (x : Q) (l : list Q) :
  qsorted l -> qsorted (Np.insert x l).
Proof.
  induction 1 as [|a l S IH Hall]; simpl.
  - repeat constructor.
  - destruct (Qcompare_spec x a) as [Heq|Hlt|Hgt].
    + now constructor.
    + constructor; [now constructor|].
      constructor; [assumption|].
      rewrite Forall_forall in *. intros y Hy.
      apply Qlt_trans with a; auto.
    + constructor; [assumption|].
      rewrite Forall_forall in *. intros y Hy.
      apply insert_In in Hy as [->|Hy]; auto.
Qed.

Lemma unique_sorted (l : list Q) : qsorted (Np.unique l).
Proof.
  induction l as [|a l IH]; simpl; [constructor|now apply insert_sorted].
Qed.

Lemma contains_insert (x z : Q) (l : list Q) :
  Np.contains (Np.insert x l) z = Qeq_bool z x || Np.contains l z.
Proof.
  unfold Np.contains. induction l as [|a l IH]; simpl; [reflexivity|].
  destruct (Qcompare_spec x a) as [Heq|Hlt|Hgt]; simpl.
  - rewrite Heq. now destruct (Qeq_bool z a).
  - reflexivity.
  - rewrite IH. now destruct (Qeq_bool z a), (Qeq_bool z x).
Qed.

(** [np.unique] keeps exactly the values of its argument. *)
Lemma contains_unique (z : Q) (l : list Q) :
  Np.contains (Np.unique l) z = Np.contains l z.
Proof.
  induction l as [|a l IH]; simpl; [reflexivity|].
  rewrite contains_insert, IH. reflexivity.
Qed.

Lemma above_zero_nonzero (a : Q) (l : list Q) :
  a == 0 -> Forall (Qlt a) l -> Forall (fun y => nonzero y = true) l.
Proof.
  intros Ha Hall. rewrite Forall_forall in *. intros y Hy.
  specialize (Hall y Hy). rewrite Ha in Hall. unfold nonzero.
  destruct (Qeq_bool y 0) eqn:E; [|reflexivity].
  apply Qeq_bool_iff in E. rewrite E in Hall. now apply Qlt_irrefl in Hall.
Qed.

Lemma filter_all {A : Type} (p : A -> bool) (l : list A) :
  Forall (fun y => p y = true) l -> filter p l = l.
Proof.
  induction 1 as [|a l Ha _ IH]; simpl; [reflexivity|].
  now rewrite Ha, IH.
Qed.

Lemma contains_nonzero (l : list Q) :
  Forall (fun y => nonzero y = true) l -> Np.contains l 0 = false.
Proof.
  unfold Np.contains, nonzero. induction 1 as [|a l Ha _ IH]; simpl;
    [reflexivity|].
  rewrite IH, Qeq_bool_comm. now destruct (Qeq_bool a 0).
Qed.

(** In a strictly ascending array the value 0 occurs at most once. *)
Lemma length_sorted_zero (u : list Q) :
  qsorted u ->
  length u = (length (filter nonzero u) + if Np.contains u 0 then 1 else 0)%nat.
Proof.
  induction 1 as [|a l S IH Hall]; [reflexivity|].
  unfold Np.contains in *. simpl. unfold nonzero at 1.
  rewrite (Qeq_bool_comm 0 a).
  destruct (Qeq_bool a 0) eqn:E; simpl.
  - apply Qeq_bool_iff in E.
    pose proof (above_zero_nonzero a l E Hall) as Hnz.
    rewrite (filter_all _ _ Hnz). lia.
  - rewrite IH. lia.
Qed.

(** [len(np.unique(l))] counts the distinct nonzero values of [l], and
    the value 0 when it occurs. *)
Lemma length_unique_zero (l : list Q) :
  length (Np.unique l)
  = (length (Spec.unique_nonzero l) + if Np.contains l 0 then 1 else 0)%nat.
Proof.
  rewrite (length_sorted_zero _ (unique_sorted l)), contains_unique.
  reflexivity.
Qed.

(** When the smallest value of [l] is 0, [np.unique(l)[1:]] is the list
    of its distinct nonzero values. *)
Lemma tl_unique_background (l : list Q) (z : Q) (rest : list Q) :
  Np.unique l = z :: rest -> z == 0 ->
  tl (Np.unique l) = Spec.unique_nonzero l.
Proof.
  intros E Hz. unfold Spec.unique_nonzero.
  pose proof (unique_sorted l) as S. rewrite E in *. simpl.
  apply StronglySorted_inv in S as [_ Hall].
  apply Qeq_bool_iff in Hz as Hb. rewrite Hb. simpl.
  symmetry. apply filter_all. now apply above_zero_nonzero with z.
Qed.

End UniqueValues.

(** With a background sample in the seed map that is below every label,
    the region selector returns the distinct nonzero seed values. *)
Lemma seed_labels_background (s : ndarray) (z : Q) (rest : list Q) :
  Np.unique (Np.ravel (rows s)) = z :: rest -> (z == 0)%Q ->
  seed_labels s = Spec.unique_nonzero (Np.ravel (rows s)).
Proof. intros E Hz. unfold seed_labels. now apply tl_unique_background with z rest. Qed.

Lemma select_rois_background (s : ndarray) (z : Q) (rest : list Q)
    (roi_label : option Q) :
  Np.unique (Np.ravel (rows s)) = z :: rest -> (z == 0)%Q ->
  select_rois s roi_label
  = match roi_label with
    | Some l =>
        if Np.contains (Spec.unique_nonzero (Np.ravel (rows s))) l
        then Py.ret [l]
        else Py.sys_exit Py.Exit_roi_not_in_labels
    | None => Py.ret (Spec.unique_nonzero (Np.ravel (rows s)))
    end.
Proof.
  intros E Hz. unfold select_rois.
  rewrite (seed_labels_background s z rest E Hz).
  destruct roi_label as [l|]; [|reflexivity].
  now destruct (Np.contains _ l).
Qed.

(** When the value 0 occurs both in the seed map and in seed * mask, the
    comparison of line 211 is the comparison of the numbers of distinct
    nonzero values. *)
Lemma coarse_check_background (s m : ndarray) :
  Np.contains (Np.ravel (rows s)) 0 = true ->
  Np.contains (Np.ravel (Np.multiply_col (rows s) (rows m))) 0 = true ->
  (n_masked_seeds s m = n_seeds s <-> Spec.n_masked_labels s m = Spec.n_labels s).
Proof.
  intros Hs Hm. unfold n_masked_seeds, n_seeds, Spec.n_masked_labels, Spec.n_labels.
  rewrite !length_unique_zero, Hs, Hm. lia.
Qed.


(** ** The reconciled valid-sample set *)

Lemma std_nonzero_In (d : ndarray) (x : nat) :
  In x (std_nonzero d) <->
  x < shape0 d /\ Np.std_gt0 (Spec.row_of d x) = true.
Proof.
  unfold std_nonzero. rewrite (where_1d_map _ _ []), filter_In, in_seq.
  unfold shape0, Spec.row_of. intuition lia.
Qed.

Lemma m_nonzero_In (d : ndarray) (x : nat) :
  In x (m_nonzero d) <->
  x < shape0 d /\ Np.ne0 (Np.mean (Spec.row_of d x)) = true.
Proof.
  unfold m_nonzero. rewrite (where_1d_map _ _ []), filter_In, in_seq.
  unfold shape0, Spec.row_of. intuition lia.
Qed.

Lemma implicit_mask_indices_filter (d : ndarray) :
  implicit_mask_indices d = filter (Spec.non_degenerate d) (seq 0 (shape0 d)).
Proof.
  unfold implicit_mask_indices.
  apply (intersect1d_filter (shape0 d)
           (fun i => Np.std_gt0 (Spec.row_of d i))
           (fun i => Np.ne0 (Np.mean (Spec.row_of d i)))).
  - apply std_nonzero_In.
  - intros x Hx. rewrite m_nonzero_In. tauto.
Qed.

Lemma mask_idx_In (m : ndarray) (x : nat) :
  In x (mask_idx m) <-> x < shape0 m /\ Spec.in_mask m x = true.
Proof. unfold mask_idx. apply where_2d_map_In. Qed.

Lemma masked_indices_filter (d m : ndarray) :
  shape0 d = shape0 m ->
  Np.intersect1d (implicit_mask_indices d) (mask_idx m)
  = Spec.valid_sample_set d (Some m).
Proof.
  intro Hn. unfold Spec.valid_sample_set.
  apply (intersect1d_filter (shape0 d) (Spec.non_degenerate d) (Spec.in_mask m)).
  - intro x. rewrite implicit_mask_indices_filter, filter_In, in_seq. intuition lia.
  - intros x Hx. rewrite mask_idx_In. rewrite <- Hn. tauto.
Qed.

Lemma unmasked_indices_filter (d : ndarray) :
  implicit_mask_indices d = Spec.valid_sample_set d None.
Proof.
  rewrite implicit_mask_indices_filter. unfold Spec.valid_sample_set.
  apply filter_ext. intro i. unfold Spec.valid_sample. now rewrite andb_true_r.
Qed.

Lemma mask_indices_ok (a : args) :
  passes_checks a ->
  mask_indices a = ([], inr (Spec.valid_sample_set (data a) (mask a))).
Proof.
  intros (H1 & H2 & H3).
  unfold mask_indices, check_func_seed, check_seed_columns, reconcile_mask.
  rewrite H1, H2, Nat.eqb_refl. simpl.
  destruct (mask a) as [m|].
  - destruct H3 as [H3 H4]. rewrite H4, H3, !Nat.eqb_refl. simpl.
    rewrite masked_indices_filter by congruence. reflexivity.
  - now rewrite unmasked_indices_filter.
Qed.

Lemma mask_indices_inv (a : args) (w : list Py.event) (mi : list nat) :
  mask_indices a = (w, inr mi) -> passes_checks a.
Proof.
  unfold mask_indices, check_func_seed, check_seed_columns, reconcile_mask,
    passes_checks.
  destruct (Nat.eqb_spec (shape0 (data a)) (shape0 (seed_data a))) as [E1|N1];
    simpl; [|discriminate].
  destruct (Nat.eqb_spec (shape1 (seed_data a)) 1) as [E2|N2];
    simpl; [|discriminate].
  destruct (mask a) as [m|]; [|auto].
  destruct (Nat.eqb_spec (shape0 (seed_data a)) (shape0 m)) as [E3|N3];
    simpl; [|discriminate].
  destruct (Nat.eqb_spec (n_masked_seeds (seed_data a) m) (n_seeds (seed_data a)))
    as [E4|N4]; simpl; [auto|discriminate].
Qed.

Lemma valid_sample_set_In (d : ndarray) (m : option ndarray) (i : nat) :
  In i (Spec.valid_sample_set d m) <->
  i < shape0 d /\ Spec.valid_sample d m i = true.
Proof.
  unfold Spec.valid_sample_set. rewrite filter_In, in_seq. intuition lia.
Qed.

(** ** The per-region loop *)

Lemma set_row_app (pre rest : list (list fval)) (r0 row : list fval) :
  Np.set_row (length pre) row (pre ++ r0 :: rest) = pre ++ row :: rest.
Proof.
  induction pre as [|p pre IH]; simpl; [reflexivity|now rewrite IH].
Qed.

Lemma region_loop (f : Q -> list fval) (rois : list Q) :
  forall (pre rest : list (list fval)),
    length rest = length rois ->
    fold_left (fun out_data ir => Np.set_row (fst ir) (f (snd ir)) out_data)
              (combine (seq (length pre) (length rois)) rois)
              (pre ++ rest)
    = pre ++ map f rois.
Proof.
  induction rois as [|roi rois IH]; intros pre rest Hlen.
  - destruct rest; [reflexivity|discriminate].
  - destruct rest as [|r0 rest]; [discriminate|]. simpl.
    rewrite set_row_app.
    change (pre ++ f roi :: rest) with (pre ++ [f roi] ++ rest).
    rewrite app_assoc.
    replace (S (length pre)) with (length (pre ++ [f roi]))
      by (rewrite length_app; simpl; lia).
    rewrite IH by (simpl in Hlen; lia).
    now rewrite <- app_assoc.
Qed.

(** The loop of lines 229-232 fills row [i] with the mean for [rois[i]]. *)
Lemma region_means_map (d s : ndarray) (mi : list nat) (rois : list Q) :
  region_means d s mi rois = map (roi_row d s mi) rois.
Proof.
  unfold region_means, Np.enumerate, Np.zeros.
  apply (region_loop (roi_row d s mi) rois [] _).
  apply repeat_length.
Qed.

Lemma roi_idx_In (s : ndarray) (roi : Q) (x : nat) :
  In x (roi_idx s roi) <-> x < shape0 s /\ Spec.has_label s roi x = true.
Proof. unfold roi_idx. apply where_2d_map_In. Qed.

Lemma roi_idxx_filter (d s : ndarray) (m : option ndarray) (roi : Q) :
  shape0 d = shape0 s ->
  Np.intersect1d (Spec.valid_sample_set d m) (roi_idx s roi)
  = Spec.region_samples d s m roi.
Proof.
  intro Hn. unfold Spec.region_samples.
  apply (intersect1d_filter (shape0 d) (Spec.valid_sample d m)
           (fun i => Spec.has_label s roi i)).
  - apply valid_sample_set_In.
  - intros x Hx. rewrite roi_idx_In, <- Hn. tauto.
Qed.

Lemma col_take_rows (d : ndarray) (idx : list nat) (t : nat) :
  Np.col t (Np.take_rows (rows d) idx) = map (Spec.value_at d t) idx.
Proof. unfold Np.col, Np.take_rows. now rewrite map_map. Qed.

Lemma mean_axis0_take_rows (d : ndarray) (idx : list nat) :
  Np.mean_axis0 (shape1 d) (Np.take_rows (rows d) idx)
  = map (Spec.mean_over d idx) (seq 0 (shape1 d)).
Proof.
  unfold Np.mean_axis0, Spec.mean_over. apply map_ext. intro t.
  now rewrite col_take_rows.
Qed.

Lemma roi_row_spec (a : args) (roi : Q) :
  shape0 (data a) = shape0 (seed_data a) ->
  roi_row (data a) (seed_data a) (Spec.valid_sample_set (data a) (mask a)) roi
  = spec_region_row a roi.
Proof.
  intro Hn. unfold roi_row, spec_region_row.
  now rewrite roi_idxx_filter, mean_axis0_take_rows.
Qed.

(** The run in per-region mean mode, once the checks have passed and the
    region selector has returned [rois]. *)
Lemma run_per_region (a : args) (rois : list Q) :
  weighted a = false ->
  passes_checks a ->
  select_rois (seed_data a) (roi_label a) = ([], inr rois) ->
  run_ciftify_meants a
  = (Py.SaveCsv (Out2d (map (spec_region_row a) rois))
       :: (if outputlabels a then [Py.SaveLabels rois] else []),
     inr tt).
Proof.
  intros Hw Hc Hsel. unfold run_ciftify_meants, aggregate.
  rewrite (mask_indices_ok a Hc), Hw. simpl. rewrite Hsel. simpl.
  rewrite region_means_map.
  rewrite (map_ext _ _ (fun roi => roi_row_spec a roi (proj1 Hc))).
  unfold write_labels. destruct (outputlabels a); reflexivity.
Qed.

(** ** Weighted mode *)

Lemma seed_row_single (s : ndarray) (i : nat) :
  wf_ndarray s = true -> shape1 s = 1 -> i < shape0 s ->
  Spec.row_of s i = [Spec.weight_at s i].
Proof.
  unfold wf_ndarray, shape0, Spec.weight_at, Spec.row_of. intros Hwf H1 Hi.
  rewrite forallb_forall in Hwf.
  specialize (Hwf (nth i (rows s) []) (nth_In _ _ Hi)).
  rewrite H1 in Hwf. apply Nat.eqb_eq in Hwf.
  destruct (nth i (rows s) []) as [|x [|y r]]; try discriminate. reflexivity.
Qed.

Lemma ravel_seed_rows (s : ndarray) (idx : list nat) :
  wf_ndarray s = true -> shape1 s = 1 ->
  (forall i, In i idx -> i < shape0 s) ->
  Np.ravel (Np.take_rows (rows s) idx) = map (Spec.weight_at s) idx.
Proof.
  intros Hwf H1. unfold Np.ravel, Np.take_rows.
  induction idx as [|i idx IH]; intro Hin; simpl; [reflexivity|].
  rewrite IH by (intros j Hj; apply Hin; now right).
  fold (Spec.row_of s i).
  rewrite (seed_row_single s i Hwf H1) by (apply Hin; now left).
  reflexivity.
Qed.

Lemma dot_map {A : Type} (f g : A -> Q) (l : list A) :
  Np.dot (map f l) (map g l) = Np.Qsum (map (fun i => (f i * g i)%Q) l).
Proof.
  unfold Np.dot. induction l as [|x l IH]; simpl; [reflexivity|].
  now rewrite IH.
Qed.

Lemma weighted_average_spec (a : args) :
  passes_checks a ->
  wf_ndarray (seed_data a) = true ->
  weighted_average (data a) (seed_data a)
                   (Spec.valid_sample_set (data a) (mask a))
  = if Qeq_bool (Np.Qsum (spec_weights a)) 0
    then Py.raise Py.ZeroDivisionError
    else Py.ret (Out1d (spec_weighted_row a)).
Proof.
  intros (H1 & H2 & _) Hwf. unfold weighted_average, Np.average_axis0.
  rewrite ravel_seed_rows; try assumption.
  2:{ intros i Hi. apply valid_sample_set_In in Hi. lia. }
  unfold Np.take_rows at 1. rewrite !length_map, Nat.eqb_refl. simpl.
  fold (spec_weights a).
  destruct (Qeq_bool (Np.Qsum (spec_weights a)) 0); [reflexivity|].
  unfold Py.ret, spec_weighted_row. do 3 f_equal.
  apply map_ext. intro t.
  rewrite col_take_rows. unfold spec_weights. rewrite dot_map. reflexivity.
Qed.

(** The run in weighted mode, once the checks have passed. *)
Lemma run_weighted (a : args) :
  weighted a = true ->
  passes_checks a ->
  wf_ndarray (seed_data a) = true ->
  run_ciftify_meants a
  = if Qeq_bool (Np.Qsum (spec_weights a)) 0
    then ([], inl Py.ZeroDivisionError)
    else ([Py.SaveCsv (Out1d (spec_weighted_row a))],
          if outputlabels a then inl Py.UnboundLocalError else inr tt).
Proof.
  intros Hw Hc Hwf. unfold run_ciftify_meants, aggregate.
  rewrite (mask_indices_ok a Hc), Hw. simpl.
  rewrite (weighted_average_spec a Hc Hwf).
  destruct (Qeq_bool (Np.Qsum (spec_weights a)) 0); [reflexivity|].
  simpl. unfold write_labels. destruct (outputlabels a); reflexivity.
Qed.

Lemma mask_indices_trace (a : args) : Py.trace (mask_indices a) = [].
Proof.
  unfold mask_indices, check_func_seed, check_seed_columns, reconcile_mask.
  destruct (shape0 (data a) =? shape0 (seed_data a)); simpl; [|reflexivity].
  destruct (shape1 (seed_data a) =? 1); simpl; [|reflexivity].
  destruct (mask a) as [m|]; [|reflexivity].
  destruct (shape0 (seed_data a) =? shape0 m); simpl; [|reflexivity].
  destruct (n_masked_seeds (seed_data a) m =? n_seeds (seed_data a));
    reflexivity.
Qed.

Lemma weighted_average_trace (d s : ndarray) (mi : list nat) :
  Py.trace (weighted_average d s mi) = [].
Proof.
  unfold weighted_average.
  destruct (Np.average_axis0 _ _ _) as [[|]|avg]; reflexivity.
Qed.

Lemma select_rois_trace (s : ndarray) (l : option Q) :
  Py.trace (select_rois s l) = [].
Proof.
  unfold select_rois. destruct l as [l|]; [|reflexivity].
  destruct (Np.contains (seed_labels s) l); reflexivity.
Qed.

(** ** The checks of lines 190-212 as one decision *)

Lemma precheck_none (a : args) : precheck a = None <-> passes_checks a.
Proof.
  unfold precheck, passes_checks.
  destruct (Nat.eqb_spec (shape0 (data a)) (shape0 (seed_data a))); simpl;
    [|split; [discriminate|tauto]].
  destruct (Nat.eqb_spec (shape1 (seed_data a)) 1); simpl;
    [|split; [discriminate|tauto]].
  destruct (mask a) as [m|]; [|tauto].
  destruct (Nat.eqb_spec (shape0 (seed_data a)) (shape0 m)); simpl;
    [|split; [discriminate|tauto]].
  destruct (Nat.eqb_spec (n_masked_seeds (seed_data a) m) (n_seeds (seed_data a)));
    simpl; [tauto|split; [discriminate|tauto]].
Qed.

Lemma mask_indices_cases (a : args) :
  mask_indices a
  = match precheck a with
    | Some e => ([], inl e)
    | None => ([], inr (Spec.valid_sample_set (data a) (mask a)))
    end.
Proof.
  destruct (precheck a) as [e|] eqn:E.
  - revert E.
    unfold precheck, mask_indices, check_func_seed, check_seed_columns,
      reconcile_mask.
    destruct (shape0 (data a) =? shape0 (seed_data a)); simpl;
      [|now intros [= <-]].
    destruct (shape1 (seed_data a) =? 1); simpl; [|now intros [= <-]].
    destruct (mask a) as [m|]; [|discriminate].
    destruct (shape0 (seed_data a) =? shape0 m); simpl; [|now intros [= <-]].
    destruct (n_masked_seeds (seed_data a) m =? n_seeds (seed_data a)); simpl;
      [discriminate|now intros [= <-]].
  - apply mask_indices_ok. now apply precheck_none.
Qed.

Lemma run_precheck_fails (a : args) (e : Py.failure) :
  precheck a = Some e -> run_ciftify_meants a = ([], inl e).
Proof.
  intro E. unfold run_ciftify_meants. rewrite mask_indices_cases, E. reflexivity.
Qed.

(** ** Removing a sample *)

Section RemoveRow.

Context {A : Type}.

Lemma length_remove_row (k : nat) (l : list A) :
  k < length l -> length (remove_row k l) = length l - 1.
Proof.
  intro H. unfold remove_row.
  rewrite length_app, length_firstn, length_skipn. lia.
Qed.

Lemma nth_remove_row (k i : nat) (l : list A) (d : A) :
  k < length l -> nth i (remove_row k l) d = nth (shift k i) l d.
Proof.
  intro H. unfold remove_row, shift.
  assert (Hk : length (firstn k l) = k) by (rewrite length_firstn; lia).
  destruct (Nat.ltb_spec i k) as [Hi|Hi].
  - rewrite app_nth1 by lia. rewrite nth_firstn.
    destruct (Nat.ltb_spec i k); [reflexivity|lia].
  - rewrite app_nth2 by lia. rewrite Hk, nth_skipn. f_equal. lia.
Qed.

Lemma filter_shift (k n : nat) (P : nat -> bool) :
  k < n -> P k = false ->
  map (shift k) (filter (fun i => P (shift k i)) (seq 0 (n - 1)))
  = filter P (seq 0 n).
Proof.
  intros Hk HP.
  replace n with (k + S (n - 1 - k)) at 2 by lia.
  replace (n - 1) with (k + (n - 1 - k)) at 1 by lia.
  rewrite !seq_app, !filter_app, map_app. simpl. rewrite HP. f_equal.
  - rewrite (filter_ext_in (fun i => P (shift k i)) P).
    + rewrite <- (map_id (filter P (seq 0 k))) at 2.
      apply map_ext_in. intros i Hi. apply filter_In in Hi as [Hi _].
      apply in_seq in Hi. unfold shift.
      destruct (Nat.ltb_spec i k); [reflexivity|lia].
    + intros i Hi. apply in_seq in Hi. unfold shift.
      destruct (Nat.ltb_spec i k); [reflexivity|lia].
  - rewrite <- seq_shift, filter_map_swap.
    rewrite (filter_ext_in (fun i => P (shift k i)) (fun i => P (S i))).
    + apply map_ext_in. intros i Hi. apply filter_In in Hi as [Hi _].
      apply in_seq in Hi. unfold shift.
      destruct (Nat.ltb_spec i k); [lia|reflexivity].
    + intros i Hi. apply in_seq in Hi. unfold shift.
      destruct (Nat.ltb_spec i k); [lia|reflexivity].
Qed.

(** Selecting from the shortened array the positions that satisfy [P]
    gives the entries selected from the full array, in the same order,
    when the removed position does not satisfy [P]. *)
Lemma select_remove_row (k : nat) (l : list A) (d : A) (P P' : nat -> bool) :
  k < length l -> P k = false ->
  (forall i, i < length l - 1 -> P' i = P (shift k i)) ->
  map (fun i => nth i (remove_row k l) d)
      (filter P' (seq 0 (length l - 1)))
  = map (fun i => nth i l d) (filter P (seq 0 (length l))).
Proof.
  intros Hk HP HP'.
  rewrite <- (filter_shift k (length l) P Hk HP), map_map.
  rewrite (filter_ext_in P' (fun i => P (shift k i))).
  - apply map_ext. intro i. now apply nth_remove_row.
  - intros i Hi. apply in_seq in Hi. apply HP'. lia.
Qed.

End RemoveRow.

Lemma degenerate_not_valid (d : ndarray) (k : nat) :
  degenerate d k -> Spec.non_degenerate d k = false.
Proof.
  unfold degenerate, Spec.non_degenerate, Np.std_eq0, Np.std_gt0.
  intros [H|H].
  - destruct (Np.var (Spec.row_of d k)) as [v|]; simpl in *; [|discriminate].
    apply Qeq_bool_iff in H. unfold Np.Qlt_bool.
    replace (Qle_bool v 0) with true; [reflexivity|].
    symmetry. apply Qle_bool_iff. rewrite H. apply Qle_refl.
  - destruct (Np.mean (Spec.row_of d k)) as [v|]; simpl in *; [|discriminate].
    rewrite H. apply andb_false_r.
Qed.

Section RemoveSample.

Variable k : nat.

Lemma shape0_remove (x : ndarray) :
  k < shape0 x -> shape0 (remove_sample_nd k x) = shape0 x - 1.
Proof. intro H. unfold shape0. simpl. now apply length_remove_row. Qed.

Lemma row_of_remove (x : ndarray) (i : nat) :
  k < shape0 x ->
  Spec.row_of (remove_sample_nd k x) i = Spec.row_of x (shift k i).
Proof. intro H. unfold Spec.row_of. simpl. now apply nth_remove_row. Qed.

Lemma non_degenerate_remove (d : ndarray) (i : nat) :
  k < shape0 d ->
  Spec.non_degenerate (remove_sample_nd k d) i
  = Spec.non_degenerate d (shift k i).
Proof. intro H. unfold Spec.non_degenerate. now rewrite row_of_remove. Qed.

Lemma valid_sample_remove (d : ndarray) (m : option ndarray) (i : nat) :
  k < shape0 d ->
  (forall mask_data, m = Some mask_data -> k < shape0 mask_data) ->
  Spec.valid_sample (remove_sample_nd k d) (option_map (remove_sample_nd k) m) i
  = Spec.valid_sample d m (shift k i).
Proof.
  intros Hd Hm. unfold Spec.valid_sample. rewrite non_degenerate_remove by assumption.
  destruct m as [mask_data|]; simpl; [|reflexivity].
  unfold Spec.in_mask. now rewrite row_of_remove by (now apply Hm).
Qed.

Lemma has_label_remove (s : ndarray) (roi : Q) (i : nat) :
  k < shape0 s ->
  Spec.has_label (remove_sample_nd k s) roi i = Spec.has_label s roi (shift k i).
Proof. intro H. unfold Spec.has_label. now rewrite row_of_remove. Qed.

Lemma take_rows_remove (x : ndarray) (P P' : nat -> bool) :
  k < shape0 x -> P k = false ->
  (forall i, P' i = P (shift k i)) ->
  Np.take_rows (rows (remove_sample_nd k x)) (filter P' (seq 0 (shape0 x - 1)))
  = Np.take_rows (rows x) (filter P (seq 0 (shape0 x))).
Proof.
  intros Hk HP HP'. unfold Np.take_rows, shape0. simpl.
  apply select_remove_row; auto.
Qed.

Variable a : args.

Hypothesis k_data : k < shape0 (data a).
Hypothesis k_seed : k < shape0 (seed_data a).
Hypothesis k_mask : forall m, mask a = Some m -> k < shape0 m.
Hypothesis k_degenerate : degenerate (data a) k.
Lemma shape_test_remove (x y : ndarray) :
  k < shape0 x -> k < shape0 y ->
  (shape0 (remove_sample_nd k x) =? shape0 (remove_sample_nd k y))
  = (shape0 x =? shape0 y).
Proof.
  intros Hx Hy. rewrite !shape0_remove by assumption.
  destruct (Nat.eqb_spec (shape0 x) (shape0 y));
    destruct (Nat.eqb_spec (shape0 x - 1) (shape0 y - 1));
    (reflexivity || lia).
Qed.

Lemma precheck_remove :
  same_coarse_verdict k a -> precheck (remove_sample k a) = precheck a.
Proof.
  intro Hv. unfold precheck. cbn [remove_sample data seed_data mask].
  rewrite shape_test_remove by assumption.
  change (shape1 (remove_sample_nd k (seed_data a))) with (shape1 (seed_data a)).
  destruct (Nat.eqb_spec (shape0 (data a)) (shape0 (seed_data a))) as [H0|];
    simpl; [|reflexivity].
  destruct (Nat.eqb_spec (shape1 (seed_data a)) 1) as [H1|]; simpl;
    [|reflexivity].
  destruct (mask a) as [m|] eqn:Em; simpl; [|reflexivity].
  rewrite shape_test_remove by (try assumption; now apply k_mask).
  destruct (Nat.eqb_spec (shape0 (seed_data a)) (shape0 m)) as [H2|]; simpl;
    [|reflexivity].
  specialize (Hv m). unfold reaches_coarse_check, coarse_check_passes in Hv.
  rewrite Em in Hv. now rewrite Hv.
Qed.

Lemma valid_k_false : Spec.valid_sample (data a) (mask a) k = false.
Proof.
  unfold Spec.valid_sample. now rewrite degenerate_not_valid.
Qed.

Lemma valid_sample_set_remove :
  Spec.valid_sample_set (data (remove_sample k a)) (mask (remove_sample k a))
  = filter (fun i => Spec.valid_sample (data a) (mask a) (shift k i))
           (seq 0 (shape0 (data a) - 1)).
Proof.
  unfold Spec.valid_sample_set. simpl. rewrite shape0_remove by assumption.
  apply filter_ext. intro i. now apply valid_sample_remove.
Qed.

Lemma weighted_average_remove :
  passes_checks a ->
  weighted_average (data (remove_sample k a)) (seed_data (remove_sample k a))
    (Spec.valid_sample_set (data (remove_sample k a)) (mask (remove_sample k a)))
  = weighted_average (data a) (seed_data a)
      (Spec.valid_sample_set (data a) (mask a)).
Proof.
  intros (H1 & _). unfold weighted_average.
  rewrite valid_sample_set_remove. unfold Spec.valid_sample_set.
  cbn [remove_sample data seed_data].
  set (P := Spec.valid_sample (data a) (mask a)).
  set (P' := fun i => P (shift k i)).
  assert (Ed : Np.take_rows (rows (remove_sample_nd k (data a)))
                 (filter P' (seq 0 (shape0 (data a) - 1)))
               = Np.take_rows (rows (data a)) (filter P (seq 0 (shape0 (data a)))))
    by (apply take_rows_remove; auto using valid_k_false).
  assert (Es : Np.take_rows (rows (remove_sample_nd k (seed_data a)))
                 (filter P' (seq 0 (shape0 (data a) - 1)))
               = Np.take_rows (rows (seed_data a))
                   (filter P (seq 0 (shape0 (data a)))))
    by (rewrite H1; apply take_rows_remove; auto using valid_k_false).
  now rewrite Ed, Es.
Qed.

Lemma spec_region_row_remove (roi : Q) :
  spec_region_row (remove_sample k a) roi = spec_region_row a roi.
Proof.
  unfold spec_region_row. cbn [remove_sample data seed_data mask].
  change (shape1 (remove_sample_nd k (data a))) with (shape1 (data a)).
  apply map_ext. intro t. unfold Spec.mean_over. f_equal.
  rewrite <- !col_take_rows. f_equal.
  unfold Spec.region_samples. rewrite shape0_remove by assumption.
  apply take_rows_remove.
  - assumption.
  - now rewrite valid_k_false.
  - intro i. now rewrite valid_sample_remove, has_label_remove.
Qed.

End RemoveSample.

(** ** Per-region mean mode *)

(** C1, as the code has it.  In per-region mean mode the loop of lines
    229-232 checks nothing: once the checks of lines 190-212 have passed
    and the region selector has returned [rois], the run writes the
    output matrix and ends normally, and the row of every label that
    shares no sample with the valid-sample set is NaN at every
    timepoint. *)
Theorem empty_region_yields_nan_row (a : args) (rois : list Q) :
  weighted a = false ->
  passes_checks a ->
  select_rois (seed_data a) (roi_label a) = ([], inr rois) ->
  Py.outcome (run_ciftify_meants a) = inr tt /\
  ~ fails_with a RegionFullyMasked /\
  exists out,
    In (Py.SaveCsv (Out2d out)) (Py.trace (run_ciftify_meants a)) /\
    length out = length rois /\
    forall i, i < length rois ->
      Spec.region_samples (data a) (seed_data a) (mask a) (nth i rois 0%Q) = [] ->
      nth i out [] = repeat NaN (shape1 (data a)).
Proof.
  intros Hw Hc Hsel. rewrite (run_per_region a rois Hw Hc Hsel).
  split; [reflexivity|]. split.
  - intros (f & Hf & _).
    rewrite (run_per_region a rois Hw Hc Hsel) in Hf. discriminate.
  - exists (map (spec_region_row a) rois). split; [now left|].
    split; [apply length_map|].
    intros i Hi Hempty.
    rewrite (nth_indep _ [] (spec_region_row a 0%Q)) by (now rewrite length_map).
    rewrite map_nth. unfold spec_region_row. rewrite Hempty.
    unfold Spec.mean_over. simpl.
    now rewrite map_const, length_seq.
Qed.

Lemma empty_region_yields_nan_row_witness :
  Py.outcome (run_ciftify_meants flat_region) = inr tt /\
  ~ fails_with flat_region RegionFullyMasked /\
  exists out,
    In (Py.SaveCsv (Out2d out)) (Py.trace (run_ciftify_meants flat_region)) /\
    length out = 2 /\
    forall i, i < 2 ->
      Spec.region_samples (data flat_region) (seed_data flat_region)
        (mask flat_region) (nth i [inject_Z 1; inject_Z 2] 0%Q) = [] ->
      nth i out [] = repeat NaN (shape1 (data flat_region)).
Proof.
  apply (empty_region_yields_nan_row flat_region [inject_Z 1; inject_Z 2]).
  - reflexivity.
  - repeat split.
  - reflexivity.
Defined.

(** C1 as stated fails: in [flat_region] label 1 is requested and it
    shares no sample with the valid-sample set, yet no RegionFullyMasked error
    is raised; the run ends normally. *)
Lemma region_fully_masked_not_raised :
  weighted flat_region = false /\
  select_rois (seed_data flat_region) (roi_label flat_region)
  = ([], inr [inject_Z 1; inject_Z 2]) /\
  Spec.region_samples (data flat_region) (seed_data flat_region)
    (mask flat_region) (inject_Z 1) = [] /\
  Py.outcome (run_ciftify_meants flat_region) = inr tt /\
  ~ fails_with flat_region RegionFullyMasked.
Proof.
  repeat split.
  intros (f & Hf & _). vm_compute in Hf. discriminate.
Qed.

Lemma nth_map_seq {B : Type} (g : nat -> B) (n t : nat) (d : B) :
  t < n -> nth t (map g (seq 0 n)) d = g t.
Proof.
  intro H. rewrite (nth_indep _ d (g 0)) by (now rewrite length_map, length_seq).
  rewrite map_nth, seq_nth by assumption. reflexivity.
Qed.

Lemma nth_map_lt {A B : Type} (f : A -> B) (l : list A) (i : nat) (d : B) (d' : A) :
  i < length l -> nth i (map f l) d = f (nth i l d').
Proof.
  intro H. rewrite (nth_indep _ d (f d')) by (now rewrite length_map).
  apply map_nth.
Qed.

(** C2.  In per-region mean mode, once the checks have passed and the
    region selector has returned [rois], the run writes an output matrix
    with one row per label, in the order of [rois]: entry [t] of row [i]
    is the arithmetic mean, at timepoint [t], of the functional matrix
    over exactly the samples in the intersection of (samples labelled [rois[i]]) and
    (reconciled valid-sample set). *)
Theorem region_rows_are_means (a : args) (rois : list Q) :
  weighted a = false ->
  passes_checks a ->
  select_rois (seed_data a) (roi_label a) = ([], inr rois) ->
  exists out,
    run_ciftify_meants a
    = (Py.SaveCsv (Out2d out)
         :: (if outputlabels a then [Py.SaveLabels rois] else []),
       inr tt) /\
    length out = length rois /\
    forall i, i < length rois ->
      length (nth i out []) = shape1 (data a) /\
      forall t, t < shape1 (data a) ->
        nth t (nth i out []) NaN
        = Spec.mean_over (data a)
            (Spec.region_samples (data a) (seed_data a) (mask a)
               (nth i rois 0%Q))
            t.
Proof.
  intros Hw Hc Hsel. exists (map (spec_region_row a) rois).
  split; [now apply run_per_region|].
  split; [apply length_map|].
  intros i Hi. rewrite (nth_map_lt _ _ _ _ 0%Q) by assumption.
  unfold spec_region_row. split.
  - now rewrite length_map, length_seq.
  - intros t Ht. now apply nth_map_seq.
Qed.

Lemma region_rows_are_means_witness :
  exists out,
    run_ciftify_meants atlas_masked
    = ([Py.SaveCsv (Out2d out); Py.SaveLabels [inject_Z 1; inject_Z 2]],
       inr tt) /\
    length out = 2 /\
    forall i, i < 2 ->
      length (nth i out []) = 3 /\
      forall t, t < 3 ->
        nth t (nth i out []) NaN
        = Spec.mean_over (data atlas_masked)
            (Spec.region_samples (data atlas_masked) (seed_data atlas_masked)
               (mask atlas_masked) (nth i [inject_Z 1; inject_Z 2] 0%Q))
            t.
Proof.
  apply (region_rows_are_means atlas_masked [inject_Z 1; inject_Z 2]).
  - reflexivity.
  - repeat split.
  - reflexivity.
Defined.

(** ** The valid-sample set *)

(** C3.  When the checks of lines 190-212 pass, the reconciled
    [mask_indices] is the ascending list of the sample indices whose time
    series has std > 0 and mean != 0 and, when a mask is supplied, whose
    mask value is > 0; without a mask it is the std/mean-filtered set
    itself. *)
Theorem reconciled_valid_sample_set (a : args) :
  passes_checks a ->
  mask_indices a = ([], inr (Spec.valid_sample_set (data a) (mask a))) /\
  (forall i,
      In i (Spec.valid_sample_set (data a) (mask a)) <->
      i < shape0 (data a) /\
      Np.std_gt0 (Spec.row_of (data a) i) = true /\
      Np.ne0 (Np.mean (Spec.row_of (data a) i)) = true /\
      match mask a with
      | Some mask_data => Spec.in_mask mask_data i = true
      | None => True
      end) /\
  (mask a = None ->
   Spec.valid_sample_set (data a) (mask a) = implicit_mask_indices (data a)).
Proof.
  intro Hc. split; [now apply mask_indices_ok|]. split.
  - intro i. rewrite valid_sample_set_In.
    unfold Spec.valid_sample, Spec.non_degenerate.
    rewrite !andb_true_iff. destruct (mask a); intuition.
  - intros ->. symmetry. apply unmasked_indices_filter.
Qed.

Lemma reconciled_valid_sample_set_witness :
  mask_indices atlas_masked
  = ([], inr (Spec.valid_sample_set (data atlas_masked) (mask atlas_masked))) /\
  (forall i,
      In i (Spec.valid_sample_set (data atlas_masked) (mask atlas_masked)) <->
      i < shape0 (data atlas_masked) /\
      Np.std_gt0 (Spec.row_of (data atlas_masked) i) = true /\
      Np.ne0 (Np.mean (Spec.row_of (data atlas_masked) i)) = true /\
      match mask atlas_masked with
      | Some mask_data => Spec.in_mask mask_data i = true
      | None => True
      end) /\
  (mask atlas_masked = None ->
   Spec.valid_sample_set (data atlas_masked) (mask atlas_masked)
   = implicit_mask_indices (data atlas_masked)).
Proof.
  apply (reconciled_valid_sample_set atlas_masked). repeat split.
Defined.

(** ** The coarse completeness check *)

(** The run ends with the exit of line 212 exactly when a mask is given,
    the earlier checks pass and the two [len(np.unique(...))] differ. *)
Lemma roi_outside_mask_iff (a : args) :
  Py.outcome (run_ciftify_meants a)
  = inl (Py.SystemExit Py.Exit_roi_outside_mask)
  <->
  exists mask_data,
    mask a = Some mask_data /\
    shape0 (data a) = shape0 (seed_data a) /\
    shape1 (seed_data a) = 1 /\
    shape0 (seed_data a) = shape0 mask_data /\
    n_masked_seeds (seed_data a) mask_data <> n_seeds (seed_data a).
Proof.
  unfold run_ciftify_meants. rewrite mask_indices_cases.
  destruct (precheck a) as [e|] eqn:E.
  - rewrite bind_fail. simpl. revert E. unfold precheck.
    destruct (Nat.eqb_spec (shape0 (data a)) (shape0 (seed_data a))); simpl.
    2:{ intros [= <-]. split; [discriminate|]. intros (m & _ & H & _). tauto. }
    destruct (Nat.eqb_spec (shape1 (seed_data a)) 1); simpl.
    2:{ intros [= <-]. split; [discriminate|]. intros (m & _ & _ & H & _). tauto. }
    destruct (mask a) as [m|]; [|discriminate].
    destruct (Nat.eqb_spec (shape0 (seed_data a)) (shape0 m)); simpl.
    2:{ intros [= <-]. split; [discriminate|].
        intros (m' & [= <-] & _ & _ & H & _). tauto. }
    destruct (Nat.eqb_spec (n_masked_seeds (seed_data a) m) (n_seeds (seed_data a)));
      simpl; [discriminate|].
    intros [= <-]. split; [|reflexivity]. intros _. now exists m.
  - apply precheck_none in E as Hc. rewrite bind_pure. split.
    + unfold aggregate. destruct (weighted a).
      * unfold weighted_average.
        destruct (Np.average_axis0 _ _ _) as [[|]|avg]; simpl; try discriminate.
        unfold write_labels. destruct (outputlabels a); discriminate.
      * unfold select_rois. destruct (roi_label a) as [l|]; simpl.
        -- destruct (Np.contains (seed_labels (seed_data a)) l); simpl;
             [|discriminate].
           unfold write_labels. destruct (outputlabels a); discriminate.
        -- unfold write_labels. destruct (outputlabels a); discriminate.
    + intros (m & Hm & _ & _ & _ & Hn). destruct Hc as (_ & _ & Hc).
      rewrite Hm in Hc. tauto.
Qed.

(** C4 on the code.  In scenario B the seed map has two distinct nonzero
    labels and seed * mask has one, so the counts of the claim differ;
    the code compares [len(np.unique(...))], zero included, finds 2 and
    2, and the run goes on to write a NaN row for region 2.  In
    [partial_mask] both regions keep a sample, the counts of the claim
    are 2 and 2, and the code (2 against 3) stops with the exit of line
    212. *)
Theorem coarse_check_counts_zero :
  (Spec.n_labels (seed_data scenario_B) = 2 /\
   Spec.n_masked_labels (seed_data scenario_B) (of_Z 1 [[1]; [1]; [0]; [0]]%Z) = 1 /\
   n_seeds (seed_data scenario_B) = 2 /\
   n_masked_seeds (seed_data scenario_B) (of_Z 1 [[1]; [1]; [0]; [0]]%Z) = 2 /\
   run_ciftify_meants scenario_B
   = ([Py.SaveCsv (Out2d [[NaN; NaN; NaN]])], inr tt)) /\
  (Spec.n_labels (seed_data partial_mask) = 2 /\
   Spec.n_masked_labels (seed_data partial_mask) (of_Z 1 [[1]; [0]; [1]; [0]]%Z) = 2 /\
   n_seeds (seed_data partial_mask) = 2 /\
   n_masked_seeds (seed_data partial_mask) (of_Z 1 [[1]; [0]; [1]; [0]]%Z) = 3 /\
   run_ciftify_meants partial_mask
   = ([], inl (Py.SystemExit Py.Exit_roi_outside_mask))).
Proof. repeat split. Qed.

(** ** The region selector *)

(** C5 on the code.  In scenario A the unique nonzero seed values are 1
    and 2, but [np.unique(seed_data)[1:]] is [2]: the all-labels list
    lacks label 1, the output has one row, and a request for label 1
    stops with the exit of line 221. *)
Theorem first_label_dropped :
  Spec.unique_nonzero (Np.ravel (rows (seed_data scenario_A)))
  = [inject_Z 1; inject_Z 2] /\
  select_rois (seed_data scenario_A) None = ([], inr [inject_Z 2]) /\
  (exists row, run_ciftify_meants scenario_A
               = ([Py.SaveCsv (Out2d [row])], inr tt)) /\
  Np.contains (Spec.unique_nonzero (Np.ravel (rows (seed_data scenario_A))))
    (inject_Z 1) = true /\
  run_ciftify_meants scenario_A_label_1
  = ([], inl (Py.SystemExit Py.Exit_roi_not_in_labels)).
Proof.
  repeat split. eexists. vm_compute. reflexivity.
Qed.

(** ** The alignment stage *)

(** C8 on the code.  A seed map whose column count is not 1 (and whose
    sample count matches the functional data) makes the run stop at line
    195 with AttributeError; nothing is written. *)
Theorem multi_column_seed_aborts (a : args) :
  shape0 (data a) = shape0 (seed_data a) ->
  shape1 (seed_data a) <> 1 ->
  run_ciftify_meants a = ([], inl Py.AttributeError).
Proof.
  intros H0 H1. apply run_precheck_fails. unfold precheck.
  rewrite H0, Nat.eqb_refl. simpl.
  destruct (Nat.eqb_spec (shape1 (seed_data a)) 1); [contradiction|reflexivity].
Qed.

Lemma multi_column_seed_aborts_witness :
  run_ciftify_meants two_column_seed = ([], inl Py.AttributeError).
Proof.
  apply (multi_column_seed_aborts two_column_seed).
  - reflexivity.
  - simpl. lia.
Defined.

(** ** Weighted mode *)

(** C6.  In weighted mode, once the checks have passed, whatever the run
    writes as output is the single row whose entry at each timepoint [t]
    is sum(value_i * weight_i) / sum(weight_i) over exactly the samples of
    the reconciled valid-sample set, with weight_i the seed-map value at
    sample i; and the run writes it whenever the weights do not sum to
    zero. *)
Theorem weighted_row_closed_form (a : args) :
  weighted a = true ->
  passes_checks a ->
  wf_ndarray (seed_data a) = true ->
  let s := Spec.valid_sample_set (data a) (mask a) in
  let row :=
    map (fun t => Fin (Spec.weighted_mean_over (data a) (seed_data a) s t))
        (seq 0 (shape1 (data a))) in
  (forall out, In (Py.SaveCsv out) (Py.trace (run_ciftify_meants a)) ->
               out = Out1d row) /\
  (~ (Np.Qsum (map (Spec.weight_at (seed_data a)) s) == 0)%Q ->
   Py.trace (run_ciftify_meants a) = [Py.SaveCsv (Out1d row)]).
Proof.
  intros Hw Hc Hwf s row. rewrite (run_weighted a Hw Hc Hwf).
  fold s in row. change (spec_weights a) with (map (Spec.weight_at (seed_data a)) s).
  change (spec_weighted_row a) with row.
  destruct (Qeq_bool (Np.Qsum (map (Spec.weight_at (seed_data a)) s)) 0) eqn:E.
  - split.
    + intros out [].
    + intro Hne. apply Qeq_bool_iff in E. contradiction.
  - split.
    + intros out [[= <-]|[]]. reflexivity.
    + reflexivity.
Qed.

Lemma weighted_row_closed_form_witness :
  let a := weighted_with_labels in
  let s := Spec.valid_sample_set (data a) (mask a) in
  let row :=
    map (fun t => Fin (Spec.weighted_mean_over (data a) (seed_data a) s t))
        (seq 0 (shape1 (data a))) in
  (forall out, In (Py.SaveCsv out) (Py.trace (run_ciftify_meants a)) ->
               out = Out1d row) /\
  (~ (Np.Qsum (map (Spec.weight_at (seed_data a)) s) == 0)%Q ->
   Py.trace (run_ciftify_meants a) = [Py.SaveCsv (Out1d row)]).
Proof.
  apply (weighted_row_closed_form weighted_with_labels).
  - reflexivity.
  - repeat split.
  - reflexivity.
Defined.

(** C7, as the code has it.  In weighted mode, once the checks have
    passed, the run ends with InvalidWeights exactly when the seed-map
    weights over the reconciled valid-sample set sum to zero: then
    [np.average] raises ZeroDivisionError and nothing is written.
    Weights whose sum is not zero, negative ones included, give the
    numeric row of the closed form. *)
Theorem zero_weight_sum_fails (a : args) :
  weighted a = true ->
  passes_checks a ->
  wf_ndarray (seed_data a) = true ->
  ((Np.Qsum (spec_weights a) == 0)%Q ->
   run_ciftify_meants a = ([], inl Py.ZeroDivisionError)) /\
  (~ (Np.Qsum (spec_weights a) == 0)%Q ->
   Py.trace (run_ciftify_meants a) = [Py.SaveCsv (Out1d (spec_weighted_row a))]) /\
  (fails_with a InvalidWeights <-> (Np.Qsum (spec_weights a) == 0)%Q).
Proof.
  intros Hw Hc Hwf. unfold fails_with. rewrite (run_weighted a Hw Hc Hwf).
  destruct (Qeq_bool (Np.Qsum (spec_weights a)) 0) eqn:E.
  - apply Qeq_bool_iff in E. repeat split; try tauto.
    intros _. now exists Py.ZeroDivisionError.
  - apply Qeq_bool_neq in E. repeat split; try tauto.
    intros (f & Hf & Hcl). simpl in Hf.
    destruct (outputlabels a); [|discriminate].
    injection Hf as <-. discriminate.
Qed.

Lemma zero_weight_sum_fails_witness :
  let a := zero_sum_weights in
  ((Np.Qsum (spec_weights a) == 0)%Q ->
   run_ciftify_meants a = ([], inl Py.ZeroDivisionError)) /\
  (~ (Np.Qsum (spec_weights a) == 0)%Q ->
   Py.trace (run_ciftify_meants a) = [Py.SaveCsv (Out1d (spec_weighted_row a))]) /\
  (fails_with a InvalidWeights <-> (Np.Qsum (spec_weights a) == 0)%Q).
Proof.
  apply (zero_weight_sum_fails zero_sum_weights).
  - reflexivity.
  - repeat split.
  - reflexivity.
Defined.

(** C7 as stated fails: in [negative_weight] a weight over the valid
    set is negative (the weights are -1 and 3), yet the run raises no
    error and writes a numeric row. *)
Lemma negative_weight_accepted :
  weighted negative_weight = true /\
  spec_weights negative_weight = [inject_Z (-1); inject_Z 3] /\
  existsb (fun w => Np.Qlt_bool w 0) (spec_weights negative_weight) = true /\
  run_ciftify_meants negative_weight
  = ([Py.SaveCsv (Out1d [Fin (8 # 2); Fin (13 # 2)])], inr tt) /\
  ~ fails_with negative_weight InvalidWeights.
Proof.
  repeat split.
  intros (f & Hf & _). vm_compute in Hf. discriminate.
Qed.

(** C10.  In weighted mode [rois] is never assigned.  With
    [--outputlabels] the run therefore never ends normally and never
    writes a label file; if it writes the output matrix, that is its only
    write and it then stops with UnboundLocalError at line 237; and it
    does write the matrix whenever the checks pass and the weights do not
    sum to zero. *)
Theorem weighted_labels_unbound (a : args) :
  weighted a = true ->
  outputlabels a = true ->
  Py.outcome (run_ciftify_meants a) <> inr tt /\
  (forall rois, ~ In (Py.SaveLabels rois) (Py.trace (run_ciftify_meants a))) /\
  (forall out, In (Py.SaveCsv out) (Py.trace (run_ciftify_meants a)) ->
               run_ciftify_meants a
               = ([Py.SaveCsv out], inl Py.UnboundLocalError)) /\
  (passes_checks a -> wf_ndarray (seed_data a) = true ->
   ~ (Np.Qsum (spec_weights a) == 0)%Q ->
   run_ciftify_meants a
   = ([Py.SaveCsv (Out1d (spec_weighted_row a))], inl Py.UnboundLocalError)).
Proof.
  intros Hw Hl. split; [|split; [|split]].
  4:{ intros Hc Hwf Hne. rewrite (run_weighted a Hw Hc Hwf), Hl.
      destruct (Qeq_bool (Np.Qsum (spec_weights a)) 0) eqn:E; [|reflexivity].
      apply Qeq_bool_iff in E. contradiction. }
  all: unfold run_ciftify_meants; rewrite mask_indices_cases;
    destruct (precheck a) as [e|];
    [ rewrite bind_fail; simpl; try discriminate; tauto | ];
    rewrite bind_pure; unfold aggregate; rewrite Hw, Hl;
    pose proof (weighted_average_trace (data a) (seed_data a)
                  (Spec.valid_sample_set (data a) (mask a))) as Ht;
    destruct (weighted_average _ _ _) as [w [e|out]];
    simpl in Ht; subst w; simpl.
  - discriminate.
  - discriminate.
  - tauto.
  - intros rois [H|[]]. discriminate.
  - tauto.
  - intros out' [[= <-]|[]]. reflexivity.
Qed.

Lemma weighted_labels_unbound_witness :
  let a := weighted_with_labels in
  Py.outcome (run_ciftify_meants a) <> inr tt /\
  (forall rois, ~ In (Py.SaveLabels rois) (Py.trace (run_ciftify_meants a))) /\
  (forall out, In (Py.SaveCsv out) (Py.trace (run_ciftify_meants a)) ->
               run_ciftify_meants a
               = ([Py.SaveCsv out], inl Py.UnboundLocalError)) /\
  (passes_checks a -> wf_ndarray (seed_data a) = true ->
   ~ (Np.Qsum (spec_weights a) == 0)%Q ->
   run_ciftify_meants a
   = ([Py.SaveCsv (Out1d (spec_weighted_row a))], inl Py.UnboundLocalError)).
Proof.
  apply (weighted_labels_unbound weighted_with_labels); reflexivity.
Defined.

(** ** Degenerate samples *)

Lemma run_label_rejected (a : args) (l : Q) :
  weighted a = false ->
  passes_checks a ->
  roi_label a = Some l ->
  Np.contains (seed_labels (seed_data a)) l = false ->
  run_ciftify_meants a = ([], inl (Py.SystemExit Py.Exit_roi_not_in_labels)).
Proof.
  intros Hw Hc Hl Hn. unfold run_ciftify_meants, aggregate.
  rewrite (mask_indices_ok a Hc), bind_pure, Hw.
  unfold select_rois. now rewrite Hl, Hn.
Qed.

Lemma run_label_accepted (a : args) (l : Q) :
  weighted a = false ->
  passes_checks a ->
  roi_label a = Some l ->
  Np.contains (seed_labels (seed_data a)) l = true ->
  Py.outcome (run_ciftify_meants a) = inr tt.
Proof.
  intros Hw Hc Hl Hn. rewrite (run_per_region a [l] Hw Hc); [reflexivity|].
  unfold select_rois. now rewrite Hl, Hn.
Qed.

Lemma reaches_coarse_check_remove (k : nat) (a : args) (m : ndarray) :
  k < shape0 (data a) -> k < shape0 (seed_data a) -> k < shape0 m ->
  reaches_coarse_check a m ->
  reaches_coarse_check (remove_sample k a) (remove_sample_nd k m).
Proof.
  intros Hd Hs Hm (Em & H0 & H1 & H2). unfold reaches_coarse_check.
  cbn [remove_sample data seed_data mask]. rewrite Em.
  rewrite !shape0_remove by assumption. repeat split; try assumption; lia.
Qed.

(** The verdict of line 211 can be read off the way the run ends. *)
Lemma coarse_verdict_from_outcome (a : args) (m : ndarray) :
  reaches_coarse_check a m ->
  coarse_check_passes (seed_data a) m
  = match Py.outcome (run_ciftify_meants a) with
    | inl (Py.SystemExit Py.Exit_roi_outside_mask) => false
    | _ => true
    end.
Proof.
  intros (Em & H0 & H1 & H2). unfold coarse_check_passes.
  destruct (Nat.eqb_spec (n_masked_seeds (seed_data a) m) (n_seeds (seed_data a)))
    as [E|N].
  - destruct (Py.outcome (run_ciftify_meants a)) as [[[]| | | |]|] eqn:Ho;
      try reflexivity.
    apply roi_outside_mask_iff in Ho as (m' & Em' & _ & _ & _ & Hne).
    rewrite Em in Em'. injection Em' as <-. contradiction.
  - assert (Ho : Py.outcome (run_ciftify_meants a)
                 = inl (Py.SystemExit Py.Exit_roi_outside_mask))
      by (apply roi_outside_mask_iff; now exists m).
    now rewrite Ho.
Qed.

(** C9, as the code has it.  For a sample [k] whose time series has
    std == 0 or mean == 0, removing it (its row in the functional, seed
    and mask arrays) leaves the whole run unchanged (the same writes,
    the same end)
    - in weighted mode without mask, with no further condition;
    - in every mode, provided line 211, when it is reached, decides the
      same with and without the sample, and lines 219-225, when they are
      reached, return the same label list.
    Both conditions are needed: when the two runs are the same, line 211
    decides the same, and a requested label is accepted or rejected
    alike. *)
Theorem degenerate_sample_is_inert (a : args) (k : nat) :
  k < shape0 (data a) ->
  k < shape0 (seed_data a) ->
  (forall m, mask a = Some m -> k < shape0 m) ->
  degenerate (data a) k ->
  (weighted a = true -> mask a = None ->
   run_ciftify_meants (remove_sample k a) = run_ciftify_meants a) /\
  (same_coarse_verdict k a -> same_label_list k a ->
   run_ciftify_meants (remove_sample k a) = run_ciftify_meants a) /\
  (run_ciftify_meants (remove_sample k a) = run_ciftify_meants a ->
   same_coarse_verdict k a /\
   forall l, weighted a = false -> passes_checks a -> roi_label a = Some l ->
             Np.contains (seed_labels (remove_sample_nd k (seed_data a))) l
             = Np.contains (seed_labels (seed_data a)) l).
Proof.
  intros Hd Hs Hm Hdeg.
  assert (Hsuff : same_coarse_verdict k a -> same_label_list k a ->
                  run_ciftify_meants (remove_sample k a) = run_ciftify_meants a).
  { intros Hv Hlab.
    assert (Hpre : precheck (remove_sample k a) = precheck a)
      by (now apply precheck_remove).
    destruct (precheck a) as [e|] eqn:E.
    - rewrite (run_precheck_fails a e E). now apply run_precheck_fails.
    - assert (Hc : passes_checks a) by now apply precheck_none.
      assert (Hc' : passes_checks (remove_sample k a)) by now apply precheck_none.
      unfold run_ciftify_meants.
      rewrite (mask_indices_ok _ Hc), (mask_indices_ok _ Hc').
      rewrite !bind_pure. unfold aggregate.
      change (weighted (remove_sample k a)) with (weighted a).
      change (outputlabels (remove_sample k a)) with (outputlabels a).
      destruct (weighted a) eqn:Hw.
      + now rewrite (weighted_average_remove k a Hd Hs Hm Hdeg Hc).
      + change (select_rois (seed_data (remove_sample k a))
                            (roi_label (remove_sample k a)))
          with (select_rois (remove_sample_nd k (seed_data a)) (roi_label a)).
        rewrite (Hlab Hw Hc).
        destruct (select_rois (seed_data a) (roi_label a)) as [w [e|rois]];
          [reflexivity|].
        rewrite !bind_return. rewrite !region_means_map.
        rewrite (map_ext _ _ (fun roi => roi_row_spec _ roi (proj1 Hc'))).
        rewrite (map_ext _ _ (fun roi => roi_row_spec _ roi (proj1 Hc))).
        now rewrite (map_ext _ _ (spec_region_row_remove k a Hd Hs Hm Hdeg)). }
  split; [|split; [exact Hsuff|]].
  - intros Hw Hnone. apply Hsuff.
    + intros m (Em & _). congruence.
    + intros Hw'. congruence.
  - intro Hrun.
    assert (Hv : same_coarse_verdict k a).
    { intros m Hr.
      rewrite (coarse_verdict_from_outcome a m Hr).
      assert (Hkm : k < shape0 m) by (apply Hm; apply Hr).
      pose proof (reaches_coarse_check_remove k a m Hd Hs Hkm Hr) as Hr'.
      rewrite <- Hrun.
      exact (coarse_verdict_from_outcome (remove_sample k a) _ Hr'). }
    split; [exact Hv|].
    intros l Hw Hc Hl.
    assert (Hc' : passes_checks (remove_sample k a)).
    { apply precheck_none. rewrite (precheck_remove k a Hd Hs Hm Hv).
      now apply precheck_none. }
    destruct (Np.contains (seed_labels (seed_data a)) l) eqn:E;
      destruct (Np.contains (seed_labels (remove_sample_nd k (seed_data a))) l)
        eqn:E'; try reflexivity; exfalso.
    + pose proof (run_label_accepted a l Hw Hc Hl E) as Ho.
      rewrite <- Hrun in Ho.
      rewrite (run_label_rejected (remove_sample k a) l Hw Hc' Hl E') in Ho.
      discriminate.
    + pose proof (run_label_accepted (remove_sample k a) l Hw Hc' Hl E') as Ho.
      rewrite Hrun in Ho.
      rewrite (run_label_rejected a l Hw Hc Hl E) in Ho.
      discriminate.
Qed.

Lemma degenerate_sample_is_inert_witness :
  let a := flat_sample in
  (weighted a = true -> mask a = None ->
   run_ciftify_meants (remove_sample 1 a) = run_ciftify_meants a) /\
  (same_coarse_verdict 1 a -> same_label_list 1 a ->
   run_ciftify_meants (remove_sample 1 a) = run_ciftify_meants a) /\
  (run_ciftify_meants (remove_sample 1 a) = run_ciftify_meants a ->
   same_coarse_verdict 1 a /\
   forall l, weighted a = false -> passes_checks a -> roi_label a = Some l ->
             Np.contains (seed_labels (remove_sample_nd 1 (seed_data a))) l
             = Np.contains (seed_labels (seed_data a)) l).
Proof.
  apply (degenerate_sample_is_inert flat_sample 1).
  - vm_compute. lia.
  - vm_compute. lia.
  - discriminate.
  - left. reflexivity.
Defined.

(** In [flat_sample] the label of the removed sample is carried by
    sample 2 as well, and the run is unchanged; in
    [flat_sample_weighted] the removed sample is the only one with its
    weight, and the run is unchanged all the same. *)
Lemma removal_examples :
  same_coarse_verdict 1 flat_sample /\
  same_label_list 1 flat_sample /\
  run_ciftify_meants (remove_sample 1 flat_sample)
  = run_ciftify_meants flat_sample /\
  Np.unique (Np.ravel (rows (remove_sample_nd 1 (seed_data flat_sample_weighted))))
  <> Np.unique (Np.ravel (rows (seed_data flat_sample_weighted))) /\
  run_ciftify_meants (remove_sample 1 flat_sample_weighted)
  = run_ciftify_meants flat_sample_weighted.
Proof.
  split; [intros m (Em & _); discriminate Em|].
  split; [intros _ _; reflexivity|].
  split; [reflexivity|].
  split; [intro H; vm_compute in H; discriminate H|reflexivity].
Qed.

(** C9 as stated fails: in [flat_region] sample 1 has std == 0, and the
    run without it writes one row where the run with it writes two. *)
Lemma degenerate_sample_changes_output :
  degenerate (data flat_region) 1 /\
  run_ciftify_meants flat_region
  = ([Py.SaveCsv (Out2d [[NaN; NaN]; [Fin (inject_Z 3); Fin (inject_Z 4)]])],
     inr tt) /\
  run_ciftify_meants (remove_sample 1 flat_region)
  = ([Py.SaveCsv (Out2d [[Fin (inject_Z 3); Fin (inject_Z 4)]])], inr tt) /\
  run_ciftify_meants (remove_sample 1 flat_region)
  <> run_ciftify_meants flat_region.
Proof.
  split; [left; reflexivity|]. repeat split. discriminate.
Qed.

(** ** How the run ends, and what it has written by then *)

(** After the checks of lines 190-212, lines 214-232 either fail with one
    of three failures, having written nothing, or return [out_data]; and
    [rois] is left unassigned exactly in weighted mode. *)
Lemma aggregate_cases (a : args) (mi : list nat) :
  (exists e, aggregate a mi = ([], inl e) /\
             ((e = Py.ValueError /\ weighted a = true) \/
              (e = Py.ZeroDivisionError /\ weighted a = true) \/
              (e = Py.SystemExit Py.Exit_roi_not_in_labels /\
               weighted a = false /\
               exists l, roi_label a = Some l /\
                         Np.contains (seed_labels (seed_data a)) l = false))) \/
  (exists out, aggregate a mi = ([], inr (out, None)) /\ weighted a = true) \/
  (exists out rois, aggregate a mi = ([], inr (out, Some rois)) /\
                    weighted a = false /\
                    select_rois (seed_data a) (roi_label a) = ([], inr rois)).
Proof.
  unfold aggregate. destruct (weighted a).
  - unfold weighted_average.
    destruct (Np.average_axis0 _ _ _) as [[|]|avg]; simpl.
    + left. eexists. split; [reflexivity|]. now left.
    + left. eexists. split; [reflexivity|]. right. now left.
    + right. left. eexists. now split.
  - unfold select_rois. destruct (roi_label a) as [l|]; simpl.
    + destruct (Np.contains (seed_labels (seed_data a)) l) eqn:E; simpl.
      * right. right. do 2 eexists. repeat split.
      * left. eexists. split; [reflexivity|]. right. right.
        repeat split. now exists l.
    + right. right. do 2 eexists. repeat split.
Qed.

Lemma run_after_checks (a : args) :
  precheck a = None ->
  run_ciftify_meants a
  = (r <- aggregate a (Spec.valid_sample_set (data a) (mask a)) ;;
     Py.emit (Py.SaveCsv (fst r)) ;;
     write_labels (outputlabels a) (snd r)).
Proof.
  intro E. unfold run_ciftify_meants. rewrite mask_indices_cases, E.
  now rewrite bind_pure.
Qed.

(** Once the checks have passed, only these failures remain. *)
Lemma failure_after_checks (a : args) (f : Py.failure) :
  precheck a = None ->
  Py.outcome (run_ciftify_meants a) = inl f ->
  f = Py.ValueError \/ f = Py.ZeroDivisionError \/
  f = Py.SystemExit Py.Exit_roi_not_in_labels \/ f = Py.UnboundLocalError.
Proof.
  intros E Hf. rewrite (run_after_checks a E) in Hf.
  destruct (aggregate_cases a (Spec.valid_sample_set (data a) (mask a)))
    as [(e & Hag & He)|[(out & Hag & _)|(out & rois & Hag & _)]];
    rewrite Hag in Hf; simpl in Hf.
  - injection Hf as <-. tauto.
  - unfold write_labels in Hf. destruct (outputlabels a); simpl in Hf;
      [injection Hf as <-; tauto|discriminate].
  - unfold write_labels in Hf. destruct (outputlabels a); discriminate.
Qed.

Ltac precheck_cases a :=
  unfold precheck;
  destruct (Nat.eqb_spec (shape0 (data a)) (shape0 (seed_data a))); simpl;
  [ destruct (Nat.eqb_spec (shape1 (seed_data a)) 1); simpl;
    [ let m := fresh "m" in
      let Em := fresh "Em" in
      destruct (mask a) as [m|] eqn:Em;
      [ destruct (Nat.eqb_spec (shape0 (seed_data a)) (shape0 m)); simpl;
        [ destruct (Nat.eqb_spec (n_masked_seeds (seed_data a) m)
                                 (n_seeds (seed_data a))); simpl | ]
      | ]
    | ]
  | ].

Lemma precheck_func_seed (a : args) :
  precheck a = Some (Py.SystemExit Py.Exit_func_seed_voxels)
  <-> shape0 (data a) <> shape0 (seed_data a).
Proof. precheck_cases a; split; intro H; congruence. Qed.

Lemma precheck_seed_columns (a : args) :
  precheck a = Some Py.AttributeError
  <-> shape0 (data a) = shape0 (seed_data a) /\ shape1 (seed_data a) <> 1.
Proof. precheck_cases a; split; intro H; try congruence; tauto. Qed.

Lemma precheck_mask_seed (a : args) :
  precheck a = Some (Py.SystemExit Py.Exit_mask_seed_voxels)
  <-> shape0 (data a) = shape0 (seed_data a) /\
      shape1 (seed_data a) = 1 /\
      exists mask_data, mask a = Some mask_data /\
                        shape0 (seed_data a) <> shape0 mask_data.
Proof.
  precheck_cases a; split; intro H; try congruence;
    try (destruct H as (? & ? & m' & Hm' & ?); congruence).
  repeat split; try assumption. eexists; split; [reflexivity|assumption].
Qed.

(** A failure of lines 190-212 is the failure of the whole run, and the
    later lines produce none of these four. *)
Lemma outcome_precheck (a : args) (e : Py.failure) :
  e = Py.SystemExit Py.Exit_func_seed_voxels \/
  e = Py.SystemExit Py.Exit_mask_seed_voxels \/
  e = Py.SystemExit Py.Exit_roi_outside_mask \/
  e = Py.AttributeError ->
  (Py.outcome (run_ciftify_meants a) = inl e <-> precheck a = Some e).
Proof.
  intro He. destruct (precheck a) as [e'|] eqn:E.
  - rewrite (run_precheck_fails a e' E). simpl. split; congruence.
  - split; [|discriminate]. intro Hf.
    pose proof (failure_after_checks a e E Hf) as Hpost.
    destruct He as [ -> | [ -> | [ -> | -> ] ] ];
      destruct Hpost as [|[|[|]]]; discriminate.
Qed.

(** X1.  The run ends with the exit of line 192 exactly when the
    functional data and the seed map differ in their number of samples,
    and with the exit of line 208 exactly when these agree, the seed map
    has one column, a mask is given and the mask and the seed map differ
    in their number of samples.  No other path reports a shape
    mismatch. *)
Theorem shape_mismatch_iff (a : args) :
  (Py.outcome (run_ciftify_meants a)
   = inl (Py.SystemExit Py.Exit_func_seed_voxels)
   <-> shape0 (data a) <> shape0 (seed_data a)) /\
  (Py.outcome (run_ciftify_meants a)
   = inl (Py.SystemExit Py.Exit_mask_seed_voxels)
   <-> shape0 (data a) = shape0 (seed_data a) /\
       shape1 (seed_data a) = 1 /\
       exists mask_data, mask a = Some mask_data /\
                         shape0 (seed_data a) <> shape0 mask_data) /\
  (fails_with a ShapeMismatch
   <-> shape0 (data a) <> shape0 (seed_data a) \/
       (shape1 (seed_data a) = 1 /\
        exists mask_data, mask a = Some mask_data /\
                          shape0 (seed_data a) <> shape0 mask_data)).
Proof.
  assert (H192 := outcome_precheck a (Py.SystemExit Py.Exit_func_seed_voxels)).
  assert (H208 := outcome_precheck a (Py.SystemExit Py.Exit_mask_seed_voxels)).
  rewrite precheck_func_seed in H192. rewrite precheck_mask_seed in H208.
  split; [apply H192; tauto|]. split; [apply H208; tauto|].
  unfold fails_with. split.
  - intros (f & Hf & Hcl).
    destruct f as [[| | |]| | | |]; try discriminate.
    + left. apply H192; [tauto|assumption].
    + right. apply H208 in Hf; [|tauto]. tauto.
  - intros [Hne|(H1 & Hm)].
    + exists (Py.SystemExit Py.Exit_func_seed_voxels).
      split; [|reflexivity]. apply H192; [tauto|assumption].
    + destruct (Nat.eq_dec (shape0 (data a)) (shape0 (seed_data a))) as [H0|H0].
      * exists (Py.SystemExit Py.Exit_mask_seed_voxels).
        split; [|reflexivity]. apply H208; tauto.
      * exists (Py.SystemExit Py.Exit_func_seed_voxels).
        split; [|reflexivity]. apply H192; [tauto|assumption].
Qed.

(** X2.  The run writes the output matrix first and the label file
    second, and nothing else.  It ends normally only after the matrix is
    written (and the label file too when [--outputlabels] is given, which
    then is not in weighted mode).  Every failure leaves nothing written,
    except the unbound [rois] of line 237, which comes after the matrix
    alone has been written. *)
Theorem write_discipline (a : args) :
  (Py.outcome (run_ciftify_meants a) = inr tt ->
   (outputlabels a = false /\
    exists out, Py.trace (run_ciftify_meants a) = [Py.SaveCsv out]) \/
   (outputlabels a = true /\ weighted a = false /\
    exists out rois,
      Py.trace (run_ciftify_meants a) = [Py.SaveCsv out; Py.SaveLabels rois])) /\
  (forall f, Py.outcome (run_ciftify_meants a) = inl f ->
             (f <> Py.UnboundLocalError /\ Py.trace (run_ciftify_meants a) = []) \/
             (f = Py.UnboundLocalError /\
              weighted a = true /\ outputlabels a = true /\
              exists out, Py.trace (run_ciftify_meants a) = [Py.SaveCsv out])).
Proof.
  destruct (precheck a) as [e|] eqn:E.
  - rewrite (run_precheck_fails a e E). simpl. split; [discriminate|].
    intros f [= <-]. left. split; [|reflexivity].
    revert E. precheck_cases a; congruence.
  - rewrite (run_after_checks a E).
    destruct (aggregate_cases a (Spec.valid_sample_set (data a) (mask a)))
      as [(e & Hag & He)|[(out & Hag & Hw)|(out & rois & Hag & Hw & _)]];
      rewrite Hag; simpl.
    + split; [discriminate|]. intros f [= <-]. left. split; [|reflexivity].
      destruct He as [[-> _]|[[-> _]|[-> _]]]; discriminate.
    + unfold write_labels. destruct (outputlabels a); simpl.
      * split; [discriminate|]. intros f [= <-]. right.
        repeat split; try assumption. now exists out.
      * split; [|discriminate]. intros _. left. split; [reflexivity|].
        now exists out.
    + unfold write_labels. destruct (outputlabels a); simpl.
      * split; [|discriminate]. intros _. right.
        repeat split; try assumption. now exists out, rois.
      * split; [|discriminate]. intros _. left. split; [reflexivity|].
        now exists out.
Qed.

(** X3.  The run ends with the exit of line 221 exactly when the checks
    of lines 190-212 pass, the mode is not weighted, and a label is
    requested that is not among [np.unique(seed_data)[1:]]. *)
Theorem unknown_label_iff (a : args) :
  Py.outcome (run_ciftify_meants a)
  = inl (Py.SystemExit Py.Exit_roi_not_in_labels)
  <->
  passes_checks a /\ weighted a = false /\
  exists l, roi_label a = Some l /\
            Np.contains (seed_labels (seed_data a)) l = false.
Proof.
  destruct (precheck a) as [e|] eqn:E.
  - rewrite (run_precheck_fails a e E). simpl. split.
    + intros [= ->]. revert E. precheck_cases a; congruence.
    + intros (Hc & _). apply precheck_none in Hc. congruence.
  - apply precheck_none in E as Hc. rewrite (run_after_checks a E).
    destruct (aggregate_cases a (Spec.valid_sample_set (data a) (mask a)))
      as [(e & Hag & He)|[(out & Hag & Hw)|(out & rois & Hag & Hw & Hsel)]];
      rewrite Hag; simpl.
    + destruct He as [[-> Hw]|[[-> Hw]|[-> Hw]]].
      * split; [discriminate|]. intros (_ & Hw' & _). congruence.
      * split; [discriminate|]. intros (_ & Hw' & _). congruence.
      * tauto.
    + split; [|intros (_ & Hw' & _); congruence].
      unfold write_labels. destruct (outputlabels a); discriminate.
    + split.
      * unfold write_labels. destruct (outputlabels a); discriminate.
      * intros (_ & _ & l & El & Hl). unfold select_rois in Hsel.
        rewrite El, Hl in Hsel. discriminate.
Qed.

(** ** One label of an atlas *)

Lemma has_label_Qeq (s : ndarray) (l l' : Q) (i : nat) :
  (l == l')%Q -> Spec.has_label s l i = Spec.has_label s l' i.
Proof.
  intro E. unfold Spec.has_label.
  induction (Spec.row_of s i) as [|x r IH]; simpl; [reflexivity|].
  rewrite IH. f_equal. now rewrite E.
Qed.

Lemma spec_region_row_Qeq (a : args) (l l' : Q) :
  (l == l')%Q -> spec_region_row a l = spec_region_row a l'.
Proof.
  intro E. unfold spec_region_row, Spec.region_samples.
  rewrite (filter_ext _ (fun i => Spec.valid_sample (data a) (mask a) i
                                  && Spec.has_label (seed_data a) l' i)).
  - reflexivity.
  - intro i. now rewrite (has_label_Qeq _ l l').
Qed.

Lemma contains_nth (arr : list Q) (l : Q) (i : nat) :
  i < length arr -> (nth i arr 0 == l)%Q -> Np.contains arr l = true.
Proof.
  intros Hi E. unfold Np.contains. apply existsb_exists.
  exists (nth i arr 0%Q). split; [now apply nth_In|].
  apply Qeq_bool_iff. now symmetry.
Qed.

(** X4.  In per-region mean mode, requesting label number [i] of the
    atlas with [--roi-label] writes a one-row matrix, and that row is row
    [i] of the matrix the run without [--roi-label] writes; the label
    file, when asked for, holds the requested label alone. *)
Theorem single_label_is_atlas_row (a : args) (l : Q) (i : nat) :
  weighted a = false ->
  passes_checks a ->
  roi_label a = None ->
  i < length (seed_labels (seed_data a)) ->
  (nth i (seed_labels (seed_data a)) 0 == l)%Q ->
  exists out,
    run_ciftify_meants a
    = (Py.SaveCsv (Out2d out)
         :: (if outputlabels a
             then [Py.SaveLabels (seed_labels (seed_data a))] else []),
       inr tt) /\
    run_ciftify_meants (request_label l a)
    = (Py.SaveCsv (Out2d [nth i out []])
         :: (if outputlabels a then [Py.SaveLabels [l]] else []),
       inr tt).
Proof.
  intros Hw Hc Hnone Hi Hl.
  exists (map (spec_region_row a) (seed_labels (seed_data a))). split.
  - apply run_per_region; try assumption.
    unfold select_rois. now rewrite Hnone.
  - rewrite (run_per_region (request_label l a) [l]); try assumption.
    + simpl. rewrite (nth_map_lt _ _ _ _ 0%Q) by assumption.
      now rewrite (spec_region_row_Qeq a _ l Hl).
    + unfold select_rois. simpl. now rewrite (contains_nth _ l i Hi Hl).
Qed.

Lemma single_label_is_atlas_row_witness :
  exists out,
    run_ciftify_meants atlas_masked
    = ([Py.SaveCsv (Out2d out); Py.SaveLabels [inject_Z 1; inject_Z 2]],
       inr tt) /\
    run_ciftify_meants (request_label (inject_Z 2) atlas_masked)
    = ([Py.SaveCsv (Out2d [nth 1 out []]); Py.SaveLabels [inject_Z 2]],
       inr tt).
Proof.
  apply (single_label_is_atlas_row atlas_masked (inject_Z 2) 1).
  - reflexivity.
  - repeat split.
  - reflexivity.
  - vm_compute. lia.
  - reflexivity.
Defined.

(** ** What the implicit mask keeps *)

Section Statistics.

Local Open Scope Q_scope.

Lemma Qlen_pos {A : Type} (x : A) (l : list A) : 0 < Np.Qlen (x :: l).
Proof.
  unfold Np.Qlen. change 0 with (inject_Z 0). rewrite <- Zlt_Qlt.
  simpl length. lia.
Qed.

Lemma Qlen_cons {A : Type} (x : A) (l : list A) :
  Np.Qlen (x :: l) == 1 + Np.Qlen l.
Proof.
  unfold Np.Qlen. simpl length.
  rewrite Nat2Z.inj_succ, <- Z.add_1_l, inject_Z_plus. reflexivity.
Qed.

Lemma Qsum_nonneg (l : list Q) :
  Forall (fun y => 0 <= y) l -> 0 <= Np.Qsum l.
Proof.
  induction 1 as [|y l Hy _ IH]; simpl; [apply Qle_refl|]. lra.
Qed.

Lemma Qsum_pos_iff (l : list Q) :
  Forall (fun y => 0 <= y) l ->
  (0 < Np.Qsum l <-> exists y, In y l /\ 0 < y).
Proof.
  induction 1 as [|y l Hy Hall IH]; simpl.
  - split; [intro H; lra|intros (y & [] & _)].
  - pose proof (Qsum_nonneg l Hall) as Hs. split.
    + intro H. destruct (Qlt_le_dec 0 y) as [Hp|Hn].
      * exists y. split; [now left|assumption].
      * assert (0 < Np.Qsum l) as Hl by lra.
        apply IH in Hl as (z & Hz & Hz0).
        exists z. split; [now right|assumption].
    + intros (z & [<-|Hz] & Hz0); [lra|].
      assert (0 < Np.Qsum l) by (apply IH; now exists z). lra.
Qed.

Lemma Qsum_const (c : Q) (l : list Q) :
  Forall (fun y => y == c) l -> Np.Qsum l == Np.Qlen l * c.
Proof.
  induction 1 as [|y l Hy _ IH]; simpl.
  - unfold Np.Qlen. simpl. change (inject_Z 0) with 0. ring.
  - rewrite Qlen_cons, IH, Hy. lra.
Qed.

Lemma sq_pos_iff (x m : Q) : 0 < (x - m) * (x - m) <-> ~ x == m.
Proof.
  split.
  - intros H E. rewrite E in H. lra.
  - intro H. destruct (Q_dec x m) as [[Hlt|Hgt]|E]; [| |contradiction]; nra.
Qed.

Lemma div_pos_iff (s n : Q) : 0 < n -> (0 < s / n <-> 0 < s).
Proof.
  intro Hn. split; intro H.
  - assert (s == (s / n) * n) as -> by (field; lra). nra.
  - apply Qlt_shift_div_l; lra.
Qed.

Lemma Qlt_bool_iff (x y : Q) : Np.Qlt_bool x y = true <-> x < y.
Proof.
  unfold Np.Qlt_bool. rewrite negb_true_iff. split.
  - intro H. apply Qnot_le_lt. intro Hle.
    apply Qle_bool_iff in Hle. congruence.
  - intro H. destruct (Qle_bool y x) eqn:E; [|reflexivity].
    apply Qle_bool_iff in E. lra.
Qed.

Lemma forallb_false_exists {A : Type} (p : A -> bool) (l : list A) :
  forallb p l = false -> exists y, In y l /\ p y = false.
Proof.
  induction l as [|a l IH]; simpl; [discriminate|].
  destruct (p a) eqn:E; simpl.
  - intro H. destruct (IH H) as (y & Hy & Hp). exists y. tauto.
  - intros _. exists a. tauto.
Qed.

(** Some entry differs from the mean exactly when two entries differ. *)
Lemma differs_from_mean_iff (a : Q) (l : list Q) :
  let m := Np.Qsum (a :: l) / Np.Qlen (a :: l) in
  (exists x, In x (a :: l) /\ ~ x == m) <->
  (exists x y, In x (a :: l) /\ In y (a :: l) /\ ~ x == y).
Proof.
  intro m. pose proof (Qlen_pos a l) as Hn. split.
  - intros (x & Hx & Hxm).
    destruct (forallb (fun y => Qeq_bool y x) (a :: l)) eqn:E.
    + exfalso. apply Hxm.
      assert (Hall : Forall (fun y => y == x) (a :: l)).
      { apply Forall_forall. intros y Hy.
        rewrite forallb_forall in E. now apply Qeq_bool_iff, E. }
      unfold m. rewrite (Qsum_const x _ Hall). field. lra.
    + apply forallb_false_exists in E as (y & Hy & Hp).
      apply Qeq_bool_neq in Hp. exists x, y. repeat split; try assumption.
      intro E. apply Hp. now symmetry.
  - intros (x & y & Hx & Hy & Hxy).
    destruct (Qeq_dec x m) as [E|E].
    + exists y. split; [assumption|]. intro E'. apply Hxy. now rewrite E, E'.
    + now exists x.
Qed.

(** The standard deviation of a time series is positive exactly when two
    of its values differ. *)
Lemma std_gt0_iff (l : list Q) :
  Np.std_gt0 l = true <-> exists x y, In x l /\ In y l /\ ~ x == y.
Proof.
  destruct l as [|a l].
  - split; [discriminate|]. intros (x & _ & [] & _).
  - rewrite <- differs_from_mean_iff.
    unfold Np.std_gt0, Np.var, Np.mean. cbn [map Np.gt0].
    set (m := Np.Qsum (a :: l) / Np.Qlen (a :: l)).
    set (sq := fun x => (x - m) * (x - m)).
    change ((a - m) * (a - m) :: map sq l) with (map sq (a :: l)).
    rewrite Qlt_bool_iff.
    assert (Hlen : 0 < Np.Qlen (map sq (a :: l))) by apply Qlen_pos.
    rewrite (div_pos_iff _ _ Hlen).
    rewrite Qsum_pos_iff.
    + split.
      * intros (z & Hz & Hz0). apply in_map_iff in Hz as (x & <- & Hx).
        exists x. split; [assumption|]. now apply sq_pos_iff.
      * intros (x & Hx & Hxm). exists (sq x). split.
        -- now apply in_map.
        -- now apply sq_pos_iff.
    + apply Forall_forall. intros z Hz.
      apply in_map_iff in Hz as (x & <- & _). unfold sq.
      generalize (x - m). intro e.
      destruct (Qlt_le_dec e 0); nra.
Qed.

End Statistics.

(** ** Too few timepoints, no samples *)

Lemma filter_none {A : Type} (p : A -> bool) (l : list A) :
  (forall x, In x l -> p x = false) -> filter p l = [].
Proof.
  induction l as [|a l IH]; intro H; simpl; [reflexivity|].
  rewrite (H a) by now left. apply IH. intros x Hx. apply H. now right.
Qed.

Lemma short_row_degenerate (r : list Q) :
  length r <= 1 -> Np.std_gt0 r = false.
Proof.
  intro H. destruct (Np.std_gt0 r) eqn:E; [|reflexivity].
  apply std_gt0_iff in E as (x & y & Hx & Hy & Hxy). exfalso. apply Hxy.
  destruct r as [|a [|b r]]; simpl in *; try lia; try contradiction.
  destruct Hx as [<-|[]], Hy as [<-|[]]. reflexivity.
Qed.

Lemma row_of_length (d : ndarray) (i : nat) :
  wf_ndarray d = true -> i < shape0 d -> length (Spec.row_of d i) = shape1 d.
Proof.
  unfold wf_ndarray, shape0, Spec.row_of. intros Hwf Hi.
  rewrite forallb_forall in Hwf. apply Nat.eqb_eq, Hwf. now apply nth_In.
Qed.

Lemma valid_sample_few_timepoints (d : ndarray) (m : option ndarray) (i : nat) :
  wf_ndarray d = true -> shape1 d <= 1 -> i < shape0 d ->
  Spec.valid_sample d m i = false.
Proof.
  intros Hwf HT Hi. unfold Spec.valid_sample, Spec.non_degenerate.
  rewrite short_row_degenerate; [reflexivity|].
  now rewrite row_of_length.
Qed.

(** X6.  With at most one timepoint every sample has std == 0, so no
    sample is valid: once the checks of lines 190-212 have passed,
    weighted mode stops with ZeroDivisionError and per-region mean mode
    writes a matrix in which every entry is NaN. *)
Theorem few_timepoints (a : args) :
  wf_ndarray (data a) = true ->
  shape1 (data a) <= 1 ->
  passes_checks a ->
  Spec.valid_sample_set (data a) (mask a) = [] /\
  (weighted a = true -> wf_ndarray (seed_data a) = true ->
   run_ciftify_meants a = ([], inl Py.ZeroDivisionError)) /\
  (weighted a = false ->
   forall rois,
     select_rois (seed_data a) (roi_label a) = ([], inr rois) ->
     run_ciftify_meants a
     = (Py.SaveCsv (Out2d (repeat (repeat NaN (shape1 (data a))) (length rois)))
          :: (if outputlabels a then [Py.SaveLabels rois] else []),
        inr tt)).
Proof.
  intros Hwf HT Hc.
  assert (Hv : Spec.valid_sample_set (data a) (mask a) = []).
  { apply filter_none. intros i Hi. apply in_seq in Hi.
    apply valid_sample_few_timepoints; try assumption. lia. }
  split; [assumption|]. split.
  - intros Hw Hwfs. rewrite (run_weighted a Hw Hc Hwfs).
    unfold spec_weights. now rewrite Hv.
  - intros Hw rois Hsel. rewrite (run_per_region a rois Hw Hc Hsel).
    do 4 f_equal. rewrite <- map_const. apply map_ext. intro roi.
    unfold spec_region_row.
    replace (Spec.region_samples (data a) (seed_data a) (mask a) roi)
      with (@nil nat).
    + unfold Spec.mean_over. simpl. now rewrite map_const, length_seq.
    + symmetry. apply filter_none. intros i Hi. apply in_seq in Hi.
      rewrite valid_sample_few_timepoints; try assumption; [reflexivity|lia].
Qed.

Lemma few_timepoints_witness :
  let a := single_timepoint in
  Spec.valid_sample_set (data a) (mask a) = [] /\
  (weighted a = true -> wf_ndarray (seed_data a) = true ->
   run_ciftify_meants a = ([], inl Py.ZeroDivisionError)) /\
  (weighted a = false ->
   forall rois,
     select_rois (seed_data a) (roi_label a) = ([], inr rois) ->
     run_ciftify_meants a
     = (Py.SaveCsv (Out2d (repeat (repeat NaN (shape1 (data a))) (length rois)))
          :: (if outputlabels a then [Py.SaveLabels rois] else []),
        inr tt)).
Proof.
  apply (few_timepoints single_timepoint).
  - reflexivity.
  - vm_compute. lia.
  - repeat split.
Defined.

(** X7.  With no sample at all (and a one-column seed map), weighted mode
    stops with ZeroDivisionError, a requested label is rejected by the
    exit of line 221, and the all-labels run writes an empty matrix (and
    an empty label file) and ends normally. *)
Theorem no_samples_behaviour (a : args) :
  rows (data a) = [] ->
  rows (seed_data a) = [] ->
  shape1 (seed_data a) = 1 ->
  (forall m, mask a = Some m -> rows m = []) ->
  run_ciftify_meants a
  = if weighted a then ([], inl Py.ZeroDivisionError)
    else match roi_label a with
         | Some _ => ([], inl (Py.SystemExit Py.Exit_roi_not_in_labels))
         | None => (Py.SaveCsv (Out2d [])
                      :: (if outputlabels a then [Py.SaveLabels []] else []),
                    inr tt)
         end.
Proof.
  intros Hd Hs H1 Hm.
  unfold run_ciftify_meants, mask_indices, check_func_seed, check_seed_columns,
    reconcile_mask, implicit_mask_indices, std_nonzero, m_nonzero, n_masked_seeds,
    n_seeds, mask_idx, aggregate, weighted_average, select_rois, seed_labels,
    region_means, shape0.
  rewrite Hd, Hs, H1. simpl.
  destruct (mask a) as [m|].
  - rewrite (Hm m eq_refl). simpl.
    destruct (weighted a); [reflexivity|].
    destruct (roi_label a); [reflexivity|].
    unfold write_labels. destruct (outputlabels a); reflexivity.
  - simpl. destruct (weighted a); [reflexivity|].
    destruct (roi_label a); [reflexivity|].
    unfold write_labels. destruct (outputlabels a); reflexivity.
Qed.

Lemma no_samples_behaviour_witness :
  run_ciftify_meants no_samples
  = ([Py.SaveCsv (Out2d []); Py.SaveLabels []], inr tt).
Proof.
  apply (no_samples_behaviour no_samples).
  - reflexivity.
  - reflexivity.
  - reflexivity.
  - intros m [= <-]. reflexivity.
Defined.

(** ** Masks that change nothing, and the order of the filters *)

Lemma Qmult_1_r_eq (x : Q) : (x * 1)%Q = x.
Proof.
  destruct x as [n d]. unfold Qmult. simpl.
  now rewrite Z.mul_1_r, Pos.mul_1_r.
Qed.

Lemma multiply_col_ones (rs : list (list Q)) :
  Forall (fun r => length r = 1) rs ->
  Np.multiply_col rs (repeat [1%Q] (length rs)) = rs.
Proof.
  unfold Np.multiply_col.
  induction 1 as [|r rs Hr _ IH]; simpl; [reflexivity|].
  rewrite IH. f_equal.
  destruct r as [|x [|y r]]; try discriminate. simpl.
  now rewrite Qmult_1_r_eq.
Qed.

Lemma wf_single_column (s : ndarray) :
  wf_ndarray s = true -> shape1 s = 1 ->
  Forall (fun r => length r = 1) (rows s).
Proof.
  unfold wf_ndarray. intros Hwf H1. apply Forall_forall. intros r Hr.
  rewrite forallb_forall in Hwf. rewrite <- H1. now apply Nat.eqb_eq, Hwf.
Qed.

Lemma in_mask_ones (n i : nat) : i < n -> Spec.in_mask (ones n) i = true.
Proof.
  intro H. unfold Spec.in_mask, Spec.row_of, ones. simpl.
  rewrite nth_repeat_lt by assumption. reflexivity.
Qed.

(** X8.  A mask that is 1 at every sample changes nothing: for a
    well-formed seed map, the run with such a mask is the run without
    mask. *)
Theorem mask_of_ones_is_neutral (a : args) :
  wf_ndarray (seed_data a) = true ->
  mask a = None ->
  run_ciftify_meants (with_mask (ones (shape0 (seed_data a))) a)
  = run_ciftify_meants a.
Proof.
  intros Hwf Hnone.
  set (a' := with_mask (ones (shape0 (seed_data a))) a).
  assert (Hpre : precheck a' = precheck a).
  { unfold precheck. subst a'. cbn [with_mask data seed_data mask].
    rewrite Hnone.
    destruct (Nat.eqb_spec (shape0 (data a)) (shape0 (seed_data a))); simpl;
      [|reflexivity].
    destruct (Nat.eqb_spec (shape1 (seed_data a)) 1) as [H1|H1]; simpl;
      [|reflexivity].
    unfold n_masked_seeds, n_seeds, shape0 at 2, ones. cbn [rows].
    rewrite repeat_length. unfold shape0. rewrite Nat.eqb_refl. simpl.
    rewrite multiply_col_ones by now apply wf_single_column.
    now rewrite Nat.eqb_refl. }
  destruct (precheck a) as [e|] eqn:E.
  - rewrite (run_precheck_fails a e E). now apply run_precheck_fails.
  - rewrite (run_after_checks a E), (run_after_checks a' Hpre).
    apply precheck_none in E as (H0 & _).
    replace (Spec.valid_sample_set (data a') (mask a'))
      with (Spec.valid_sample_set (data a) (mask a)); [reflexivity|].
    unfold Spec.valid_sample_set. subst a'. cbn [with_mask data mask].
    rewrite Hnone. apply filter_ext_in. intros i Hi. apply in_seq in Hi.
    unfold Spec.valid_sample.
    rewrite in_mask_ones by (rewrite <- H0; lia). reflexivity.
Qed.

Lemma mask_of_ones_is_neutral_witness :
  run_ciftify_meants (with_mask (ones (shape0 (seed_data flat_sample))) flat_sample)
  = run_ciftify_meants flat_sample.
Proof.
  apply (mask_of_ones_is_neutral flat_sample); reflexivity.
Defined.

Lemma intersect1d_comm (x y : list nat) :
  Np.intersect1d x y = Np.intersect1d y x.
Proof.
  apply ssorted_ext; try apply intersect1d_sorted.
  intro i. rewrite !intersect1d_In. tauto.
Qed.

Lemma intersect1d_assoc (x y z : list nat) :
  Np.intersect1d (Np.intersect1d x y) z
  = Np.intersect1d x (Np.intersect1d y z).
Proof.
  apply ssorted_ext; try apply intersect1d_sorted.
  intro i. rewrite !intersect1d_In. tauto.
Qed.

(** X9.  The reconciled index array does not depend on the order in
    which the std filter, the mean filter and the mask are intersected:
    taking the mask first, or between the two filters, gives the array of
    lines 202 and 210. *)
Theorem filter_order_irrelevant (d mask_data : ndarray) :
  let reconciled :=
    Np.intersect1d (Np.intersect1d (std_nonzero d) (m_nonzero d))
                   (mask_idx mask_data) in
  Np.intersect1d (mask_idx mask_data)
                 (Np.intersect1d (std_nonzero d) (m_nonzero d)) = reconciled /\
  Np.intersect1d (Np.intersect1d (mask_idx mask_data) (m_nonzero d))
                 (std_nonzero d) = reconciled /\
  Np.intersect1d (Np.intersect1d (std_nonzero d) (mask_idx mask_data))
                 (m_nonzero d) = reconciled /\
  Np.intersect1d (m_nonzero d) (std_nonzero d)
  = Np.intersect1d (std_nonzero d) (m_nonzero d).
Proof.
  intro reconciled. subst reconciled. repeat split.
  - apply intersect1d_comm.
  - rewrite (intersect1d_comm (Np.intersect1d _ _) (std_nonzero d)).
    rewrite <- intersect1d_assoc.
    now rewrite (intersect1d_comm (Np.intersect1d _ _) (m_nonzero d)),
      <- intersect1d_assoc, (intersect1d_comm (m_nonzero d)),
      intersect1d_assoc, (intersect1d_comm (m_nonzero d)), <- intersect1d_assoc.
  - rewrite !intersect1d_assoc. f_equal. apply intersect1d_comm.
  - apply intersect1d_comm.
Qed.

(** ** A binary seed map in weighted mode *)

Section BinarySeed.

Local Open Scope Q_scope.

Variables (v w : nat -> Q).

Lemma Qsum_binary_weights (s : list nat) :
  (forall i, In i s -> w i == 0 \/ w i == 1) ->
  Np.Qsum (map (fun i => v i * w i) s)
  == Np.Qsum (map v (filter (fun i => Qeq_bool (w i) 1) s)) /\
  Np.Qsum (map w s) == Np.Qlen (filter (fun i => Qeq_bool (w i) 1) s).
Proof.
  induction s as [|i s IH]; intro H.
  - split; [reflexivity|]. unfold Np.Qlen. simpl. reflexivity.
  - destruct IH as [IH1 IH2]; [intros j Hj; apply H; now right|].
    simpl. destruct (H i (or_introl eq_refl)) as [E|E].
    + assert (Qeq_bool (w i) 1 = false) as ->.
      { destruct (Qeq_bool (w i) 1) eqn:B; [|reflexivity].
        apply Qeq_bool_iff in B. rewrite E in B. discriminate. }
      rewrite IH1, IH2, E. split; ring.
    + assert (Qeq_bool (w i) 1 = true) as -> by now apply Qeq_bool_iff.
      simpl. rewrite Qlen_cons, IH1, IH2, E. split; ring.
Qed.

End BinarySeed.

Lemma filter_andb {A : Type} (p q : A -> bool) (l : list A) :
  filter (fun x => p x && q x) l = filter q (filter p l).
Proof.
  induction l as [|a l IH]; simpl; [reflexivity|].
  destruct (p a); simpl; [destruct (q a)|]; now rewrite IH.
Qed.

Lemma region_samples_by_weight (a : args) (l : Q) :
  shape0 (data a) = shape0 (seed_data a) ->
  shape1 (seed_data a) = 1 ->
  wf_ndarray (seed_data a) = true ->
  Spec.region_samples (data a) (seed_data a) (mask a) l
  = filter (fun i => Qeq_bool (Spec.weight_at (seed_data a) i) l)
           (Spec.valid_sample_set (data a) (mask a)).
Proof.
  intros H0 H1 Hwf. unfold Spec.region_samples, Spec.valid_sample_set.
  rewrite <- filter_andb. apply filter_ext_in. intros i Hi.
  apply in_seq in Hi. f_equal. unfold Spec.has_label.
  rewrite (seed_row_single _ i Hwf H1) by lia. simpl. apply orb_false_r.
Qed.

Lemma Forall2_map_same {A B C : Type} (P : B -> C -> Prop)
    (f : A -> B) (g : A -> C) (l : list A) :
  (forall x, In x l -> P (f x) (g x)) -> Forall2 P (map f l) (map g l).
Proof.
  induction l as [|a l IH]; intro H; simpl; constructor.
  - apply H. now left.
  - apply IH. intros x Hx. apply H. now right.
Qed.

(** X10.  For a seed map whose values are 0 and 1, weighted mode gives
    the time series per-region mean mode gives for label 1: when the
    weights over the valid-sample set do not sum to zero, the row written
    by the weighted run and the single row written by the run with
    [--roi-label 1] are equal entry by entry. *)
Theorem binary_seed_weighted_is_region_mean (a : args) :
  weighted a = true ->
  passes_checks a ->
  wf_ndarray (seed_data a) = true ->
  (forall i, i < shape0 (seed_data a) ->
             (Spec.weight_at (seed_data a) i == 0)%Q \/
             (Spec.weight_at (seed_data a) i == 1)%Q) ->
  Np.contains (seed_labels (seed_data a)) 1 = true ->
  ~ (Np.Qsum (spec_weights a) == 0)%Q ->
  exists wrow rrow,
    Py.trace (run_ciftify_meants a) = [Py.SaveCsv (Out1d wrow)] /\
    run_ciftify_meants (per_region_label 1 a)
    = (Py.SaveCsv (Out2d [rrow])
         :: (if outputlabels a then [Py.SaveLabels [1%Q]] else []),
       inr tt) /\
    Forall2 fval_eq wrow rrow.
Proof.
  intros Hw Hc Hwf Hbin Hin Hne.
  exists (spec_weighted_row a), (spec_region_row a 1%Q).
  split; [|split].
  - rewrite (run_weighted a Hw Hc Hwf).
    destruct (Qeq_bool (Np.Qsum (spec_weights a)) 0) eqn:B; [|reflexivity].
    apply Qeq_bool_iff in B. contradiction.
  - apply (run_per_region (per_region_label 1 a) [1%Q]).
    + reflexivity.
    + exact Hc.
    + unfold select_rois. simpl. now rewrite Hin.
  - unfold spec_weighted_row, spec_region_row.
    apply Forall2_map_same. intros t _.
    destruct Hc as (H0 & H1 & _).
    rewrite (region_samples_by_weight a 1%Q H0 H1 Hwf).
    unfold Spec.weighted_mean_over, Spec.mean_over.
    set (s := Spec.valid_sample_set (data a) (mask a)) in *.
    set (wt := Spec.weight_at (seed_data a)) in *.
    destruct (Qsum_binary_weights (Spec.value_at (data a) t) wt s) as [E1 E2].
    { intros i Hi. apply Hbin. apply valid_sample_set_In in Hi. lia. }
    unfold spec_weights in Hne. fold s wt in Hne.
    destruct (filter (fun i => Qeq_bool (wt i) 1) s) as [|i r] eqn:Er.
    + exfalso. apply Hne. rewrite E2. reflexivity.
    + cbn [map Np.mean fval_eq]. rewrite E1, E2.
      unfold Np.Qlen. cbn [map length]. rewrite length_map. reflexivity.
Qed.

Lemma binary_seed_weighted_is_region_mean_witness :
  exists wrow rrow,
    Py.trace (run_ciftify_meants binary_seed_weighted)
    = [Py.SaveCsv (Out1d wrow)] /\
    run_ciftify_meants (per_region_label 1 binary_seed_weighted)
    = ([Py.SaveCsv (Out2d [rrow])], inr tt) /\
    Forall2 fval_eq wrow rrow.
Proof.
  apply (binary_seed_weighted_is_region_mean binary_seed_weighted).
  - reflexivity.
  - repeat split.
  - reflexivity.
  - intros i Hi.
    do 4 (destruct i as [|i];
          [(left; reflexivity) || (right; reflexivity)|]).
    vm_compute in Hi. lia.
  - reflexivity.
  - intro H. vm_compute in H. discriminate.
Defined.

(** ** The name of the output file *)

Section Paths.

Import Path.

Lemma is_sep_eq (c : Ascii.ascii) : is_sep c = true -> c = Str.slash.
Proof. unfold is_sep. apply Ascii.eqb_eq. Qed.

Lemma has_sep_app (x y : Str.str) : has_sep (x ++ y) = has_sep x || has_sep y.
Proof. apply existsb_app. Qed.

Lemma head_tail_no_sep (b : Str.str) :
  has_sep b = false -> head b = [] /\ tail b = b.
Proof.
  destruct b as [|c b]; [now split|]. intro H. cbn [head tail].
  now rewrite H.
Qed.

Lemma head_tail_app_sep (x b : Str.str) :
  has_sep b = false ->
  head (x ++ Str.slash :: b) = x ++ [Str.slash] /\
  tail (x ++ Str.slash :: b) = b.
Proof.
  intro Hb. destruct (head_tail_no_sep b Hb) as [Hh Ht].
  induction x as [|c x [IH1 IH2]].
  - cbn [app head tail].
    assert (has_sep (Str.slash :: b) = true) as -> by reflexivity.
    now rewrite Hh, Ht.
  - cbn [app head tail].
    assert (has_sep (c :: x ++ Str.slash :: b) = true) as ->.
    { change (c :: x ++ Str.slash :: b) with ((c :: x) ++ Str.slash :: b).
      rewrite has_sep_app. unfold has_sep at 2. simpl. apply orb_true_r. }
    now rewrite IH1, IH2.
Qed.

Lemma ends_with_sep_snoc (x : Str.str) :
  ends_with_sep x = true -> exists x', x = x' ++ [Str.slash].
Proof.
  unfold ends_with_sep. destruct (rev x) as [|c r] eqn:E; [discriminate|].
  intro H. apply is_sep_eq in H. subst c. exists (rev r).
  rewrite <- (rev_involutive x), E. reflexivity.
Qed.

Lemma ends_with_sep_cons (c : Ascii.ascii) (x : Str.str) :
  x <> [] -> ends_with_sep (c :: x) = ends_with_sep x.
Proof.
  intro H. unfold ends_with_sep. simpl.
  destruct (rev x) as [|d r] eqn:E; [|reflexivity].
  exfalso. apply H. rewrite <- (rev_involutive x), E. reflexivity.
Qed.

Lemma all_sep_ends (x : Str.str) :
  x <> [] -> forallb is_sep x = true -> ends_with_sep x = true.
Proof.
  induction x as [|c x IH]; [congruence|]. intros _ H. simpl in H.
  apply andb_true_iff in H as [Hc Hx].
  destruct x as [|d x]; [exact Hc|].
  rewrite ends_with_sep_cons by discriminate. apply IH; [discriminate|assumption].
Qed.

Lemma rstrip_all_sep (h : Str.str) :
  forallb is_sep h = true -> rstrip_sep h = [].
Proof. destruct h; [reflexivity|]. intro H. cbn [rstrip_sep]. now rewrite H. Qed.

(** Stripping the trailing slashes of a head that has other characters
    leaves a non-empty path that does not end with a slash. *)
Lemma rstrip_shape (h : Str.str) :
  forallb is_sep h = false ->
  rstrip_sep h <> [] /\ ends_with_sep (rstrip_sep h) = false /\
  forallb is_sep (rstrip_sep h) = false.
Proof.
  induction h as [|c h IH]; [discriminate|]. intro H.
  cbn [rstrip_sep]. rewrite H.
  destruct (forallb is_sep h) eqn:Eh.
  - rewrite (rstrip_all_sep h Eh). simpl in H. rewrite Eh, andb_true_r in H.
    repeat split; try discriminate.
    + unfold ends_with_sep. simpl. assumption.
    + simpl. now rewrite H.
  - destruct (IH eq_refl) as (Hne & He & Ha). repeat split.
    + discriminate.
    + now rewrite ends_with_sep_cons.
    + simpl. rewrite Ha. apply andb_false_r.
Qed.

Lemma rstrip_app_sep (d : Str.str) :
  rstrip_sep (d ++ [Str.slash]) = rstrip_sep d.
Proof.
  induction d as [|c d IH]; [reflexivity|].
  cbn [app rstrip_sep]. rewrite IH.
  change (c :: d ++ [Str.slash]) with ((c :: d) ++ [Str.slash]).
  rewrite forallb_app. simpl forallb at 2.
  change (is_sep Str.slash) with true. simpl. now rewrite andb_true_r.
Qed.

Lemma rstrip_id (d : Str.str) :
  ends_with_sep d = false -> rstrip_sep d = d.
Proof.
  induction d as [|c d IH]; [reflexivity|]. intro H. cbn [rstrip_sep].
  destruct (forallb is_sep (c :: d)) eqn:E.
  - rewrite all_sep_ends in H; [discriminate|discriminate|assumption].
  - f_equal. destruct d as [|e d]; [reflexivity|].
    apply IH. now rewrite ends_with_sep_cons in H by discriminate.
Qed.

(** What [os.path.dirname] can return. *)
Lemma dirname_shape (p : Str.str) :
  dirname p = [] \/
  (dirname p <> [] /\ forallb is_sep (dirname p) = true) \/
  (dirname p <> [] /\ ends_with_sep (dirname p) = false /\
   forallb is_sep (dirname p) = false).
Proof.
  unfold dirname. destruct (head p) as [|c h] eqn:E; [now left|].
  destruct (forallb is_sep (c :: h)) eqn:Ea.
  - right. left. split; [discriminate|assumption].
  - right. right. now apply rstrip_shape.
Qed.

(** Joining a directory name and a file name and splitting the result
    gives them back. *)
Lemma dirname_basename_join (p b : Str.str) :
  has_sep b = false ->
  dirname (join (dirname p) b) = dirname p /\
  basename (join (dirname p) b) = b.
Proof.
  intro Hb. destruct (head_tail_no_sep b Hb) as [Hh Ht].
  assert (Hs : starts_with_sep b = false).
  { destruct b as [|c b]; [reflexivity|]. unfold has_sep in Hb. simpl in Hb.
    apply orb_false_iff in Hb. tauto. }
  unfold join, basename. rewrite Hs.
  destruct (dirname_shape p) as [E|[(Hne & Ha)|(Hne & He & Ha)]].
  - rewrite E. simpl. unfold dirname. now rewrite Hh.
  - destruct (dirname p) as [|c d] eqn:E; [congruence|].
    pose proof (all_sep_ends _ Hne Ha) as He. rewrite He.
    destruct (ends_with_sep_snoc _ He) as (x' & Ex). rewrite Ex in *.
    rewrite <- app_assoc. simpl.
    destruct (head_tail_app_sep x' b Hb) as [H1 H2]. split; [|assumption].
    unfold dirname. rewrite H1.
    destruct (x' ++ [Str.slash]) as [|c' d'] eqn:E'; [reflexivity|].
    now rewrite Ha.
  - destruct (dirname p) as [|c d] eqn:E; [congruence|]. rewrite He.
    destruct (head_tail_app_sep (c :: d) b Hb) as [H1 H2]. split; [|assumption].
    unfold dirname. rewrite H1.
    assert (Hall : forallb is_sep ((c :: d) ++ [Str.slash]) = false).
    { rewrite forallb_app, Ha. reflexivity. }
    destruct ((c :: d) ++ [Str.slash]) as [|c' d'] eqn:E'; [discriminate|].
    rewrite Hall, <- E', rstrip_app_sep. now apply rstrip_id.
Qed.

End Paths.

(** X11.  When [--outputcsv] is not given (or is empty), the output file
    is named <funcbase>_<seedbase>_meants.csv and lies in the directory
    of the functional file, provided the two base names contain no
    slash; a given [--outputcsv] is used as it is. *)
Theorem default_output_beside_func (outputcsv : option Str.str)
    (func funcbase seedbase : Str.str) :
  Path.has_sep funcbase = false ->
  Path.has_sep seedbase = false ->
  let out := resolve_outputcsv outputcsv func funcbase seedbase in
  (Str.truthy outputcsv = false ->
   Path.dirname out = Path.dirname func /\
   Path.basename out
   = funcbase ++ Str.underscore ++ seedbase ++ Str.meants_csv) /\
  (forall p, Str.truthy outputcsv = true -> outputcsv = Some p -> out = p).
Proof.
  intros Hf Hs out. subst out. split.
  - intro Ht.
    assert (Hb : Path.has_sep
                   (funcbase ++ Str.underscore ++ seedbase ++ Str.meants_csv)
                 = false).
    { rewrite !has_sep_app, Hf, Hs. reflexivity. }
    assert (E : resolve_outputcsv outputcsv func funcbase seedbase
                = Path.join (Path.dirname func)
                    (funcbase ++ Str.underscore ++ seedbase ++ Str.meants_csv)).
    { destruct outputcsv as [[|c p]|]; try reflexivity. discriminate. }
    rewrite E. now apply dirname_basename_join.
  - intros p Ht ->. destruct p; [discriminate|reflexivity].
Qed.

(** ** Which inputs get loaded *)

Lemma str_eqb_eq (x y : Str.str) : Str.eqb x y = true <-> x = y.
Proof.
  revert y. induction x as [|c x IH]; intros [|d y]; simpl;
    try (split; [discriminate|congruence]); [tauto|].
  rewrite andb_true_iff, Ascii.eqb_eq, IH. split.
  - intros [-> ->]. reflexivity.
  - intros [= -> ->]. tauto.
Qed.

Lemma str_eqb_spec (x y : Str.str) : reflect (x = y) (Str.eqb x y).
Proof.
  destruct (Str.eqb x y) eqn:E; constructor.
  - now apply str_eqb_eq.
  - intro H. apply str_eqb_eq in H. congruence.
Qed.

Lemma is_type_iff (t : option Str.str) (ty : Str.str) :
  Prog.is_type t ty = true <-> t = Some ty.
Proof.
  destruct t as [t|]; simpl; [|split; discriminate].
  rewrite str_eqb_eq. split; congruence.
Qed.

Lemma hemi_structure_some (hemi : option Str.str) :
  (exists st, Prog.hemi_structure hemi = Some st) <->
  hemi = Some Prog.hemi_L \/ hemi = Some Prog.hemi_R.
Proof.
  unfold Prog.hemi_structure. destruct hemi as [h|].
  - destruct (str_eqb_spec h Prog.hemi_L) as [->|HL].
    + split; [tauto|]. intros _. now eexists.
    + destruct (str_eqb_spec h Prog.hemi_R) as [->|HR].
      * split; [tauto|]. intros _. now eexists.
      * split; [intros (st & [=])|]. intros [[=]|[=]]; congruence.
  - split; [intros (st & [=])|]. intros [[=]|[=]].
Qed.

Ltac type_cases x :=
  destruct (str_eqb_spec x Prog.cifti) as [?|?];
  [|destruct (str_eqb_spec x Prog.gifti) as [?|?];
    [|destruct (str_eqb_spec x Prog.nifti) as [?|?]]];
  subst.

Lemma types_distinct :
  Prog.cifti <> Prog.gifti /\ Prog.cifti <> Prog.nifti /\
  Prog.gifti <> Prog.nifti.
Proof. repeat split; intro H; vm_compute in H; discriminate H. Qed.

Lemma hemis_distinct : Prog.hemi_L <> Prog.hemi_R.
Proof. intro H; vm_compute in H; discriminate H. Qed.

Lemma is_type_spec (t : option Str.str) (ty : Str.str) :
  reflect (t = Some ty) (Prog.is_type t ty).
Proof.
  destruct (Prog.is_type t ty) eqn:E; constructor.
  - now apply is_type_iff.
  - intro H. apply is_type_iff in H. congruence.
Qed.

Lemma hemi_structure_spec (hemi : option Str.str) :
  match Prog.hemi_structure hemi with
  | Some _ => hemi = Some Prog.hemi_L \/ hemi = Some Prog.hemi_R
  | None => hemi <> Some Prog.hemi_L /\ hemi <> Some Prog.hemi_R
  end.
Proof.
  destruct (Prog.hemi_structure hemi) as [st|] eqn:E.
  - apply hemi_structure_some. now exists st.
  - split; intro H;
      assert (exists st, Prog.hemi_structure hemi = Some st) as (st & Hst)
        by (apply hemi_structure_some; tauto); congruence.
Qed.

(** X12.  Lines 113-187 bind every array the later lines read exactly
    for these combinations of file types: a cifti seed with cifti
    functional data (and cifti mask); a gifti seed with gifti functional
    data (and gifti mask); a gifti seed with cifti functional data, a
    hemisphere L or R (and cifti mask); a nifti seed with nifti or cifti
    functional data (and nifti or cifti mask). *)
Theorem accepted_combinations (ext : Prog.externals)
    (tempdir func seed : Str.str) (mask hemi : option Str.str)
    (func_type seed_type : Str.str) (mask_type : option Str.str) :
  (exists runs b,
      Prog.load_inputs ext tempdir func seed mask hemi func_type seed_type
                       mask_type = (runs, inr b) /\
      Prog.complete mask b = true)
  <->
  (seed_type = Prog.cifti /\ func_type = Prog.cifti /\
   (Str.truthy mask = true -> mask_type = Some Prog.cifti)) \/
  (seed_type = Prog.gifti /\ func_type = Prog.gifti /\
   (Str.truthy mask = true -> mask_type = Some Prog.gifti)) \/
  (seed_type = Prog.gifti /\ func_type = Prog.cifti /\
   (hemi = Some Prog.hemi_L \/ hemi = Some Prog.hemi_R) /\
   (Str.truthy mask = true -> mask_type = Some Prog.cifti)) \/
  (seed_type = Prog.nifti /\
   (func_type = Prog.nifti \/ func_type = Prog.cifti) /\
   (Str.truthy mask = true ->
    mask_type = Some Prog.nifti \/ mask_type = Some Prog.cifti)).
Proof.
  unfold Prog.load_inputs, Prog.complete.
  pose proof (hemi_structure_spec hemi) as Hh.
  destruct types_distinct as (Dcg & Dcn & Dgn).
  type_cases seed_type; type_cases func_type;
    try destruct (Prog.maps_to_volume ext seed && Prog.maps_to_volume ext func);
    cbn [negb];
    destruct (Str.truthy mask) eqn:Em;
    destruct (is_type_spec mask_type Prog.cifti);
    destruct (is_type_spec mask_type Prog.gifti);
    destruct (is_type_spec mask_type Prog.nifti);
    destruct (Prog.hemi_structure hemi);
    subst; try congruence;
    (split;
     [ intros (runs & b & Hl & Hc);
       first [ discriminate Hl
             | injection Hl as <- <-; simpl in Hc; try discriminate Hc;
               intuition congruence ]
     | intros H; try (do 2 eexists; split; [reflexivity|reflexivity]);
       exfalso; intuition congruence ]).
Qed.

Lemma default_output_beside_func_witness :
  let out := resolve_outputcsv None Demo.func_path Demo.funcbase Demo.seedbase in
  (Str.truthy None = false ->
   Path.dirname out = Path.dirname Demo.func_path /\
   Path.basename out
   = Demo.funcbase ++ Str.underscore ++ Demo.seedbase ++ Str.meants_csv) /\
  (forall p, Str.truthy None = true -> None = Some p -> out = p).
Proof.
  apply (default_output_beside_func None Demo.func_path Demo.funcbase
           Demo.seedbase); reflexivity.
Defined.

(** ** Variables that stay unbound *)

(** X13.  When the type of the seed file is none of cifti, gifti and
    nifti, no branch of lines 113-187 binds [data]: the run stops at line
    191 with UnboundLocalError, with nothing written. *)
Theorem unknown_seed_type_unbound (ext : Prog.externals) (tempdir : Str.str)
    (c : Prog.cli) :
  fst (Prog.determine_filetype ext (Prog.arg_seed c)) <> Prog.cifti ->
  fst (Prog.determine_filetype ext (Prog.arg_seed c)) <> Prog.gifti ->
  fst (Prog.determine_filetype ext (Prog.arg_seed c)) <> Prog.nifti ->
  snd (Prog.run_program ext tempdir c) = inr ([], inl Py.UnboundLocalError).
Proof.
  intros Hc Hg Hn. unfold Prog.run_program, Prog.load_inputs. cbn [snd].
  destruct (str_eqb_spec (fst (Prog.determine_filetype ext (Prog.arg_seed c)))
              Prog.cifti); [contradiction|].
  destruct (str_eqb_spec (fst (Prog.determine_filetype ext (Prog.arg_seed c)))
              Prog.gifti); [contradiction|].
  destruct (str_eqb_spec (fst (Prog.determine_filetype ext (Prog.arg_seed c)))
              Prog.nifti); [contradiction|].
  reflexivity.
Qed.

Lemma unknown_seed_type_unbound_witness :
  snd (Prog.run_program Demo.ext Demo.tempdir Demo.text_seed)
  = inr ([], inl Py.UnboundLocalError).
Proof.
  apply (unknown_seed_type_unbound Demo.ext Demo.tempdir Demo.text_seed);
    intro H; vm_compute in H; discriminate H.
Defined.

(** X14.  With a gifti seed, cifti functional data and a hemisphere L or
    R, a mask whose type is not cifti is never loaded, and no [sys.exit]
    reports it: the run reaches line 207 with [mask_data] unbound.  It
    writes nothing and does not end normally; when the sample counts of
    the loaded functional data and seed map agree and the seed map has
    one column, it stops with UnboundLocalError. *)
Theorem gifti_seed_mask_unbound (ext : Prog.externals) (tempdir : Str.str)
    (c : Prog.cli) :
  fst (Prog.determine_filetype ext (Prog.arg_seed c)) = Prog.gifti ->
  fst (Prog.determine_filetype ext (Prog.arg_func c)) = Prog.cifti ->
  (Prog.arg_hemi c = Some Prog.hemi_L \/ Prog.arg_hemi c = Some Prog.hemi_R) ->
  Str.truthy (Prog.arg_mask c) = true ->
  fst (Prog.determine_filetype ext (Prog.path_of (Prog.arg_mask c)))
  <> Prog.cifti ->
  exists structure m,
    Prog.hemi_structure (Prog.arg_hemi c) = Some structure /\
    snd (Prog.run_program ext tempdir c) = inr m /\
    Py.trace m = [] /\
    Py.outcome m <> inr tt /\
    let data :=
      Prog.load ext (Prog.load_hemisphere_data (Prog.arg_func c) structure) in
    let seed_data :=
      Prog.load ext
        (Prog.load_gii_data
           (snd (Prog.convert_dlabel ext tempdir (Prog.arg_seed c)))) in
    (shape0 data = shape0 seed_data -> shape1 seed_data = 1 ->
     m = ([], inl Py.UnboundLocalError)).
Proof.
  intros Hs Hf Hh Hm Ht.
  apply hemi_structure_some in Hh as (st & Hst). exists st.
  destruct types_distinct as (Dcg & Dcn & Dgn).
  unfold Prog.run_program, Prog.load_inputs. cbn [snd].
  rewrite Hs, Hf, Hm, Hst.
  destruct (str_eqb_spec Prog.gifti Prog.cifti); [congruence|].
  destruct (str_eqb_spec Prog.gifti Prog.gifti); [|congruence].
  destruct (str_eqb_spec Prog.cifti Prog.gifti); [congruence|].
  destruct (str_eqb_spec Prog.cifti Prog.cifti); [|congruence].
  destruct (is_type_spec
              (Some (fst (Prog.determine_filetype ext
                            (Prog.path_of (Prog.arg_mask c)))))
              Prog.cifti) as [E|_]; [congruence|].
  eexists. split; [reflexivity|]. split; [reflexivity|].
  unfold Prog.run_loaded. cbn [Prog.data_of Prog.seed_data_of Prog.mask_data_of].
  rewrite Hm. unfold check_func_seed, check_seed_columns.
  set (d := Prog.load ext _). set (s := Prog.load ext _).
  destruct (Nat.eqb_spec (shape0 d) (shape0 s)); simpl.
  - destruct (Nat.eqb_spec (shape1 s) 1); simpl.
    + repeat split; discriminate.
    + repeat split; try discriminate. contradiction.
  - repeat split; try discriminate. contradiction.
Qed.

Lemma gifti_seed_mask_unbound_witness :
  let c := Demo.gifti_seed_gifti_mask in
  exists structure m,
    Prog.hemi_structure (Prog.arg_hemi c) = Some structure /\
    snd (Prog.run_program Demo.ext Demo.tempdir c) = inr m /\
    Py.trace m = [] /\
    Py.outcome m <> inr tt /\
    let data :=
      Prog.load Demo.ext
        (Prog.load_hemisphere_data (Prog.arg_func c) structure) in
    let seed_data :=
      Prog.load Demo.ext
        (Prog.load_gii_data
           (snd (Prog.convert_dlabel Demo.ext Demo.tempdir (Prog.arg_seed c)))) in
    (shape0 data = shape0 seed_data -> shape1 seed_data = 1 ->
     m = ([], inl Py.UnboundLocalError)).
Proof.
  apply (gifti_seed_mask_unbound Demo.ext Demo.tempdir Demo.gifti_seed_gifti_mask).
  - reflexivity.
  - reflexivity.
  - left. reflexivity.
  - reflexivity.
  - intro H. vm_compute in H. discriminate H.
Defined.

(** ** The label map made from a dlabel seed *)

Section DlabelMaps.

Import Dlabel.

Local Open Scope Q_scope.

Lemma length_zip_with (f : Q -> Q -> Q) (x y : list Q) :
  length y = length x -> length (zip_with f x y) = length x.
Proof.
  intro H. unfold zip_with. rewrite length_map, length_combine. lia.
Qed.

Lemma nth_zip_with (f : Q -> Q -> Q) (x y : list Q) (j : nat) :
  (j < length x)%nat -> length y = length x ->
  nth j (zip_with f x y) 0 = f (nth j x 0) (nth j y 0).
Proof.
  unfold zip_with. revert y j.
  induction x as [|a x IH]; intros [|b y] j Hj Hl; simpl in *;
    try lia; try discriminate.
  destruct j as [|j]; [reflexivity|]. apply IH; lia.
Qed.

Lemma Qsum_snoc (l : list Q) (x : Q) : Np.Qsum (l ++ [x]) == Np.Qsum l + x.
Proof. induction l as [|a l IH]; simpl; [ring|]. rewrite IH. ring. Qed.

Lemma label_sum_S (cols : list (list Q)) (m j : nat) :
  label_sum cols (S m) j
  == label_sum cols m j + Qnat (S m) * in_roi cols (S m) j.
Proof.
  unfold label_sum. rewrite seq_S, map_app. simpl map at 2.
  apply Qsum_snoc.
Qed.

Variable cols : list (list Q).
Variable n : nat.
Hypothesis same_length : forall c, In c cols -> length c = n.

Lemma length_select (k : nat) :
  (1 <= k <= length cols)%nat -> length (select cols k) = n.
Proof.
  intro H. unfold select. apply same_length, nth_In. lia.
Qed.

(** The loop of lines 107-110 keeps [shortseed] equal to the sum over the
    maps handled so far. *)
Lemma combine_loop (extra : nat) :
  forall (m : nat) (short : list Q),
    (1 <= m)%nat -> (m + extra <= length cols)%nat ->
    length short = n ->
    (forall j, (j < n)%nat -> nth j short 0 == label_sum cols m j) ->
    let result :=
      fold_left
        (fun shortseed roi =>
           zip_with (fun x y => x + y * Qnat roi) shortseed (select cols roi))
        (seq (S m) extra) short in
    length result = n /\
    forall j, (j < n)%nat -> nth j result 0 == label_sum cols (m + extra) j.
Proof.
  induction extra as [|extra IH]; intros m short Hm Hle Hlen Hval; simpl.
  - rewrite Nat.add_0_r. now split.
  - assert (Hsel : length (select cols (S m)) = n) by (apply length_select; lia).
    replace (m + S extra)%nat with (S m + extra)%nat by lia.
    apply IH; try lia.
    + rewrite length_zip_with; congruence.
    + intros j Hj. rewrite nth_zip_with by (try lia; congruence).
      rewrite label_sum_S, (Hval j Hj). unfold in_roi. ring.
Qed.

Lemma combine_rois_sum :
  (2 <= length cols)%nat ->
  length (combine_rois cols) = n /\
  forall j, (j < n)%nat ->
            nth j (combine_rois cols) 0 == label_sum cols (length cols) j.
Proof.
  intro H2. unfold combine_rois.
  assert (H1 : length (select cols 1) = n) by (apply length_select; lia).
  assert (H2' : length (select cols 2) = n) by (apply length_select; lia).
  pose proof (combine_loop (length cols - 2) 2
                (zip_with (fun x y => x * 1 + y * 2)
                          (select cols 1) (select cols 2))) as Hloop.
  cbv zeta in Hloop.
  replace (2 + (length cols - 2))%nat with (length cols) in Hloop by lia.
  apply Hloop; try lia.
  - rewrite length_zip_with; congruence.
  - intros j Hj. rewrite nth_zip_with by (try lia; congruence).
    unfold label_sum, in_roi. simpl. unfold Qnat. simpl.
    change (inject_Z 1) with 1. change (inject_Z 2) with 2. ring.
Qed.

Lemma Qsum_single (f : nat -> Q) (r : nat) (ks : list nat) :
  NoDup ks ->
  (forall k, In k ks -> k <> r -> f k == 0) ->
  Np.Qsum (map f ks) == if existsb (Nat.eqb r) ks then f r else 0.
Proof.
  induction 1 as [|k ks Hk Hnd IH]; intro H0; simpl; [reflexivity|].
  rewrite IH by (intros k' Hk' Hne; apply H0; [now right|assumption]).
  destruct (Nat.eqb_spec r k) as [->|Hne]; simpl.
  - assert (existsb (Nat.eqb k) ks = false) as ->.
    { destruct (existsb (Nat.eqb k) ks) eqn:E; [|reflexivity].
      apply existsb_exists in E as (x & Hx & Ex).
      apply Nat.eqb_eq in Ex. subst x. contradiction. }
    ring.
  - assert (Hk0 : f k == 0) by (apply H0; [now left|congruence]).
    destruct (existsb (Nat.eqb r) ks); rewrite Hk0; ring.
Qed.

End DlabelMaps.

(** X15.  For a dlabel seed with at least two maps of [n] samples each,
    the combined map of lines 104-110 has [n] samples and its value at a
    sample is the sum over the maps of (map number) * (value of the
    sample in the map).  So a sample that has value 1 in map number [r]
    and 0 in every other map gets the label [r], the position of its map
    in the file, and a sample that is 0 in every map gets 0. *)
Theorem dlabel_labels_are_map_numbers (cols : list (list Q)) (n : nat) :
  (forall c, In c cols -> length c = n) ->
  2 <= length cols ->
  length (Dlabel.combine_rois cols) = n /\
  (forall j, j < n ->
     (nth j (Dlabel.combine_rois cols) 0
      == Dlabel.label_sum cols (length cols) j)%Q) /\
  (forall j r, j < n -> 1 <= r <= length cols ->
     (Dlabel.in_roi cols r j == 1)%Q ->
     (forall k, 1 <= k <= length cols -> k <> r ->
                (Dlabel.in_roi cols k j == 0)%Q) ->
     (nth j (Dlabel.combine_rois cols) 0 == Dlabel.Qnat r)%Q) /\
  (forall j, j < n ->
     (forall k, 1 <= k <= length cols -> (Dlabel.in_roi cols k j == 0)%Q) ->
     (nth j (Dlabel.combine_rois cols) 0 == 0)%Q).
Proof.
  intros Hlen H2.
  destruct (combine_rois_sum cols n Hlen H2) as [Hl Hs].
  split; [assumption|]. split; [assumption|]. split.
  - intros j r Hj Hr H1 H0. rewrite (Hs j Hj). unfold Dlabel.label_sum.
    rewrite (Qsum_single _ r).
    + assert (existsb (Nat.eqb r) (seq 1 (length cols)) = true) as ->.
      { apply existsb_exists. exists r. split; [apply in_seq; lia|].
        apply Nat.eqb_refl. }
      rewrite H1. ring.
    + apply seq_NoDup.
    + intros k Hk Hne. apply in_seq in Hk. rewrite (H0 k) by (try lia; assumption).
      ring.
  - intros j Hj H0. rewrite (Hs j Hj). unfold Dlabel.label_sum.
    rewrite (Qsum_single _ 0).
    + assert (existsb (Nat.eqb 0) (seq 1 (length cols)) = false) as ->.
      { destruct (existsb _ _) eqn:E; [|reflexivity].
        apply existsb_exists in E as (x & Hx & Ex).
        apply in_seq in Hx. apply Nat.eqb_eq in Ex. lia. }
      reflexivity.
    + apply seq_NoDup.
    + intros k Hk _. apply in_seq in Hk. rewrite (H0 k) by lia. ring.
Qed.

Lemma dlabel_labels_are_map_numbers_witness :
  let cols := Dlabel.three_rois in
  length (Dlabel.combine_rois cols) = 4 /\
  (forall j, j < 4 ->
     (nth j (Dlabel.combine_rois cols) 0
      == Dlabel.label_sum cols (length cols) j)%Q) /\
  (forall j r, j < 4 -> 1 <= r <= length cols ->
     (Dlabel.in_roi cols r j == 1)%Q ->
     (forall k, 1 <= k <= length cols -> k <> r ->
                (Dlabel.in_roi cols k j == 0)%Q) ->
     (nth j (Dlabel.combine_rois cols) 0 == Dlabel.Qnat r)%Q) /\
  (forall j, j < 4 ->
     (forall k, 1 <= k <= length cols -> (Dlabel.in_roi cols k j == 0)%Q) ->
     (nth j (Dlabel.combine_rois cols) 0 == 0)%Q).
Proof.
  apply (dlabel_labels_are_map_numbers Dlabel.three_rois 4).
  - intros c Hc. simpl in Hc.
    destruct Hc as [<-|[<-|[<-|[]]]]; reflexivity.
  - vm_compute. lia.
Defined.

(** ** The labels of an atlas run *)

Lemma In_contains (l : Q) (arr : list Q) : In l arr -> Np.contains arr l = true.
Proof.
  intro H. unfold Np.contains. apply existsb_exists. exists l.
  split; [assumption|apply Qeq_bool_refl].
Qed.

(** X16.  In per-region mean mode without [--roi-label], once the checks
    have passed, the labels the run uses (and writes with
    [--outputlabels]) are strictly ascending and each is a value of the
    seed map; the matrix has one row less than the seed map has distinct
    values, and no row when the seed map has no value at all. *)
Theorem atlas_labels_ascending (a : args) :
  weighted a = false ->
  roi_label a = None ->
  passes_checks a ->
  exists out,
    run_ciftify_meants a
    = (Py.SaveCsv (Out2d out)
         :: (if outputlabels a
             then [Py.SaveLabels (seed_labels (seed_data a))] else []),
       inr tt) /\
    ((n_seeds (seed_data a) = 0 /\ length out = 0) \/
     n_seeds (seed_data a) = S (length out)) /\
    StronglySorted Qlt (seed_labels (seed_data a)) /\
    forall l, In l (seed_labels (seed_data a)) ->
              Np.contains (Np.ravel (rows (seed_data a))) l = true.
Proof.
  intros Hw Hnone Hc.
  exists (map (spec_region_row a) (seed_labels (seed_data a))).
  pose proof (unique_sorted (Np.ravel (rows (seed_data a)))) as Hs.
  unfold seed_labels, n_seeds in *. repeat split.
  - apply run_per_region; try assumption.
    unfold select_rois, seed_labels. now rewrite Hnone.
  - rewrite length_map.
    destruct (Np.unique (Np.ravel (rows (seed_data a)))); simpl; [now left|].
    now right.
  - destruct (Np.unique (Np.ravel (rows (seed_data a)))); simpl; [constructor|].
    now apply StronglySorted_inv in Hs.
  - intros l Hl. rewrite <- contains_unique. apply In_contains.
    destruct (Np.unique (Np.ravel (rows (seed_data a)))); simpl in *;
      [contradiction|now right].
Qed.

Lemma atlas_labels_ascending_witness :
  exists out,
    run_ciftify_meants atlas_masked
    = ([Py.SaveCsv (Out2d out);
        Py.SaveLabels (seed_labels (seed_data atlas_masked))],
       inr tt) /\
    ((n_seeds (seed_data atlas_masked) = 0 /\ length out = 0) \/
     n_seeds (seed_data atlas_masked) = S (length out)) /\
    StronglySorted Qlt (seed_labels (seed_data atlas_masked)) /\
    forall l, In l (seed_labels (seed_data atlas_masked)) ->
              Np.contains (Np.ravel (rows (seed_data atlas_masked))) l = true.
Proof.
  apply (atlas_labels_ascending atlas_masked).
  - reflexivity.
  - reflexivity.
  - repeat split.
Defined.
